(** * GiwBridge: the host side of the ImageWatch bridge

    A shallow embedding of [src/giwbridge/giw_bridge.cpp]: the class
    [GiwBridge] with its map of received messages, the pass that reads the
    client socket and dispatches on the message header, and the public
    operations built on it.

    Layout:
    - [Wire]: bytes and fixed-width integers as they travel on the socket;
    - [QTcpSocket], [QTcpServer], [QProcess]: the calls the bridge makes
      on the Qt objects it owns, as pure functions on explicit states;
    - [MessageType], [MessageComposer], [MessageDecoder]: the declarations
      of [ipc/message_exchange.h];
    - [GiwBridge]: the class itself, one definition per member function;
    - the properties, the numbered ones last in each part. *)

From Stdlib Require Import ZArith NArith List String Ascii Lia.
From Stdlib.Strings Require Byte.
From stdpp Require Import base option list gmap.

Open Scope N_scope.

(** ** Bytes and fixed-width integers *)

Module Wire.

Abbreviation byte := Init.Byte.byte.

(** The low eight bits of [n] as a byte. *)
Definition byte_of_N (n : N) : byte :=
  match Byte.of_N (n mod 256) with
  | Some b => b
  | None => Init.Byte.x00
  end.

(** [w] bytes of [n], least significant first: the image in memory of a
    [w]-byte unsigned integer on a little-endian host.  Higher bytes of
    [n] wrap away. *)
Fixpoint le_bytes (w : nat) (n : N) : list byte :=
  match w with
  | O => []
  | S w' => byte_of_N n :: le_bytes w' (n / 256)
  end.

(** The unsigned integer held by a little-endian byte sequence. *)
Fixpoint le_value (bs : list byte) : N :=
  match bs with
  | [] => 0
  | b :: bs' => Byte.to_N b + 256 * le_value bs'
  end.

(** Number of elements of a list, as the [qint64] or [size_t] the code
    computes with. *)
Definition length_N {A} (l : list A) : N := N.of_nat (length l).

End Wire.

Export Wire.

(** ** The Qt objects the bridge owns

    Qt is an external library: what follows is the behaviour of the calls
    the bridge makes, on explicit states.  Time is not measured: what the
    peer does while a call blocks is part of the state, as the list of
    events that the successive waits will observe. *)

Module QTcpSocket.

(** What one blocking wait observes: new bytes, or its timeout. *)
Inductive NetEvent : Type :=
| Arrive (bs : list byte)
| Timeout.

(** [readBuffer]: the bytes received and not yet read.
    [network]: what the next waits will observe, in order; no event left
    means that nothing will ever arrive again (the peer has closed the
    connection, or stays silent for ever).
    [written]: the bytes sent to the peer so far. *)
Record t : Type := mk {
  readBuffer : list byte;
  network : list NetEvent;
  written : list byte
}.

Definition bytesAvailable (s : t) : N := length_N (readBuffer s).

(** [waitForReadyRead(msecs)]: blocks until new bytes arrive or [msecs]
    have passed; returns whether bytes arrived. *)
Definition waitForReadyRead (msecs : Z) (s : t) : bool * t :=
  match network s with
  | Arrive bs :: net => (true, mk (readBuffer s ++ bs) net (written s))
  | Timeout :: net => (false, mk (readBuffer s) net (written s))
  | [] => (false, s)
  end.

(** [read(data, maxSize)]: moves at most [maxSize] buffered bytes to
    the caller, without blocking. *)
Definition read (maxSize : N) (s : t) : list byte * t :=
  let n := N.to_nat (N.min maxSize (bytesAvailable s)) in
  (take n (readBuffer s), mk (drop n (readBuffer s)) (network s) (written s)).

Definition write (data : list byte) (s : t) : t :=
  mk (readBuffer s) (network s) (written s ++ data).

(** Bytes of one event, and bytes that can still be read from a socket:
    buffered or yet to arrive. *)
Definition event_bytes (e : NetEvent) : nat :=
  match e with
  | Arrive bs => length bs
  | Timeout => 0
  end.

Fixpoint events_bytes (net : list NetEvent) : nat :=
  match net with
  | [] => 0
  | e :: net' => event_bytes e + events_bytes net'
  end.

Definition pending (s : t) : nat :=
  length (readBuffer s) + events_bytes (network s).

End QTcpSocket.

Module QTcpServer.

(** [port_free]: whether the operating system lets the server bind its
    port.  [inbound]: the peer that connects while the server waits, if
    one does.  [pendingConnections]: accepted and not yet handed out. *)
Record t : Type := mk {
  port_free : bool;
  isListening : bool;
  inbound : option QTcpSocket.t;
  pendingConnections : list QTcpSocket.t
}.

(** [listen(address, port)]: fails when the server listens already or
    the port cannot be bound. *)
Definition listen (port : Z) (srv : t) : bool * t :=
  if isListening srv then (false, srv)
  else if port_free srv
       then (true, mk true true (inbound srv) (pendingConnections srv))
       else (false, srv).

(** [waitForNewConnection(msec)]: blocks until a peer connects or
    [msec] have passed; returns whether a peer connected. *)
Definition waitForNewConnection (msec : Z) (srv : t) : bool * t :=
  if isListening srv then
    match inbound srv with
    | Some peer =>
        (true, mk (port_free srv) true None (pendingConnections srv ++ [peer]))
    | None => (false, srv)
    end
  else (false, srv).

(** [nextPendingConnection()]: the next accepted connection, or a null
    pointer when there is none. *)
Definition nextPendingConnection (srv : t) : option QTcpSocket.t * t :=
  match pendingConnections srv with
  | [] => (None, srv)
  | peer :: rest =>
      (Some peer, mk (port_free srv) (isListening srv) (inbound srv) rest)
  end.

End QTcpServer.

Module QProcess.

(** [processId]: the identifier of the running child, 0 when no child
    runs.  [launch]: the identifier the operating system gives the child
    when [start] is called, 0 when the program cannot be started. *)
Record t : Type := mk {
  processId : Z;
  launch : Z
}.

(** [start(program, arguments)]: launches the child, unless one runs
    already. *)
Definition start (program : string) (arguments : list string) (p : t) : t :=
  if (processId p =? 0)%Z then mk (launch p) (launch p) else p.

End QProcess.

(** ** The declarations of [ipc/message_exchange.h] *)

(** Modelled from the spec: the enumeration [MessageType] is declared in
    [ipc/message_exchange.h], which is absent.  The four enumerators are
    the ones the bridge names. *)
Inductive MessageType : Type :=
| GetObservedSymbols
| GetObservedSymbolsResponse
| SetAvailableSymbols
| PlotBufferRequest.

#[global] Instance MessageType_eq_dec : EqDecision MessageType.
Proof. solve_decision. Defined.

#[global] Instance MessageType_countable : Countable MessageType.
Proof.
  refine (inj_countable'
            (fun k => match k with
                      | GetObservedSymbols => 0%nat
                      | GetObservedSymbolsResponse => 1%nat
                      | SetAvailableSymbols => 2%nat
                      | PlotBufferRequest => 3%nat
                      end)
            (fun n => match n with
                      | 0%nat => GetObservedSymbols
                      | 1%nat => GetObservedSymbolsResponse
                      | 2%nat => SetAvailableSymbols
                      | _ => PlotBufferRequest
                      end) _).
  by intros [].
Defined.

(** Modelled from the spec: the value of each enumerator of [MessageType]
    (absent), numbered from 0 in the order the spec lists the kinds. *)
Definition MessageType_value (k : MessageType) : N :=
  match k with
  | GetObservedSymbols => 0
  | GetObservedSymbolsResponse => 1
  | SetAvailableSymbols => 2
  | PlotBufferRequest => 3
  end.

(** The enumerator a header value names, if it names one. *)
Definition MessageType_of_value (v : N) : option MessageType :=
  match v with
  | 0 => Some GetObservedSymbols
  | 1 => Some GetObservedSymbolsResponse
  | 2 => Some SetAvailableSymbols
  | 3 => Some PlotBufferRequest
  | _ => None
  end.

(** Modelled from the spec: the widths of the fixed-width values on the
    wire, [sizeof(MessageType)] and the width of the length and count
    prefixes (the codec of [ipc/message_exchange.h] is absent). *)
Definition sizeof_MessageType : nat := 4.
Definition sizeof_size_t : nat := 8.

Module MessageComposer.

(** Modelled from the spec: class [MessageComposer] (absent).  A
    composer holds the bytes pushed so far; [send] writes them to the
    socket.  A kind tag is one fixed-width value, a string is a length
    prefix followed by that many raw bytes, a sequence of strings is a
    count prefix followed by that many strings. *)
Definition t : Type := list byte.

Definition empty : t := [].

Definition push_type (k : MessageType) (c : t) : t :=
  c ++ le_bytes sizeof_MessageType (MessageType_value k).

Definition encode_string (s : string) : list byte :=
  le_bytes sizeof_size_t (length_N (list_byte_of_string s)) ++ list_byte_of_string s.

Definition encode_strings (l : list string) : list byte :=
  concat (map encode_string l).

Definition push_string (s : string) (c : t) : t := c ++ encode_string s.

Definition push_symbols (l : list string) (c : t) : t :=
  c ++ le_bytes sizeof_size_t (length_N l) ++ encode_strings l.

Definition send (c : t) (socket : QTcpSocket.t) : QTcpSocket.t :=
  QTcpSocket.write c socket.

End MessageComposer.

Module MessageDecoder.

Import QTcpSocket.

(** Modelled from the spec: the blocking read of the decoder (absent).
    It blocks on the socket until [n] bytes are available or a wait
    times out; a short read is reported ([None]) and has consumed the
    bytes that were there. *)
Fixpoint read_exact_from (n : N) (buf : list byte) (net : list NetEvent)
  : option (list byte) * (list byte * list NetEvent) :=
  if n <=? length_N buf
  then (Some (take (N.to_nat n) buf), (drop (N.to_nat n) buf, net))
  else match net with
       | Arrive bs :: net' => read_exact_from n (buf ++ bs) net'
       | Timeout :: net' => (None, ([], net'))
       | [] => (None, ([], []))
       end.

Definition read_exact (n : N) (socket : QTcpSocket.t)
  : option (list byte) * QTcpSocket.t :=
  let '(r, (buf, net)) := read_exact_from n (readBuffer socket) (network socket) in
  (r, QTcpSocket.mk buf net (written socket)).

(** Modelled from the spec: [MessageDecoder::receive_string] (absent).
    [value] is the string passed by reference; the result holds whether
    the read was complete, the string after the call and the socket.  A
    short read leaves the string as it was. *)
Definition receive_string (socket : QTcpSocket.t) (value : string)
  : bool * string * QTcpSocket.t :=
  match read_exact (N.of_nat sizeof_size_t) socket with
  | (Some prefix, socket1) =>
      match read_exact (le_value prefix) socket1 with
      | (Some raw, socket2) => (true, string_of_list_byte raw, socket2)
      | (None, socket2) => (false, value, socket2)
      end
  | (None, socket1) => (false, value, socket1)
  end.

(** The strings of a sequence, one after the other, appended to
    [container] as they are decoded.  Every string takes its length
    prefix from the socket, so [fuel] above the bytes that can still be
    read is never used up. *)
Fixpoint receive_strings (fuel : nat) (count : N) (socket : QTcpSocket.t)
    (container : list string) : bool * list string * QTcpSocket.t :=
  if count =? 0 then (true, container, socket)
  else match fuel with
       | O => (false, container, socket)
       | S fuel' =>
           match receive_string socket EmptyString with
           | (true, symbol, socket1) =>
               receive_strings fuel' (count - 1) socket1 (container ++ [symbol])
           | (false, _, socket1) => (false, container, socket1)
           end
       end.

(** Modelled from the spec: [MessageDecoder::receive_symbol_list]
    (absent): a count prefix, then that many strings. *)
Definition receive_symbol_list (socket : QTcpSocket.t) (container : list string)
  : bool * list string * QTcpSocket.t :=
  match read_exact (N.of_nat sizeof_size_t) socket with
  | (Some prefix, socket1) =>
      receive_strings (S (pending socket1)) (le_value prefix) socket1 container
  | (None, socket1) => (false, container, socket1)
  end.

End MessageDecoder.

(** ** The messages of the user interface *)

(** [struct UiMessage] and the two structs derived from it. *)
Inductive UiMessage : Type :=
| GetObservedSymbolsResponseMessage (observed_symbols : list string)
| PlotBufferRequestMessage (buffer_name : string).

(** [std::string::c_str()] as the callee reads it: the characters before
    the first NUL. *)
Fixpoint c_str (s : string) : string :=
  match s with
  | EmptyString => EmptyString
  | String c s' => if Ascii.eqb c Ascii.zero then EmptyString else String c (c_str s')
  end.

(** ** The class [GiwBridge] *)

Module GiwBridge.

(** The data members.  [client_] is a pointer, null until a peer is
    accepted.  [plot_callback_] is host code: its calls are recorded as
    events. *)
Record t : Type := mk {
  process_ : QProcess.t;
  server_ : QTcpServer.t;
  client_ : option QTcpSocket.t;
  received_messages_ : gmap MessageType UiMessage
}.

(** What a member function does to the world outside the object: a line
    on [cerr], or a call of [plot_callback_] with its argument. *)
Inductive Event : Type :=
| Cerr (line : string)
| PlotCallback (buffer_name : string).

(** How a call ends: it returns, or it stops on a failed assertion or on
    undefined behaviour ([Fault]); [OutOfFuel] is the model's own answer
    when a loop is cut short, and is shown below never to be given. *)
Inductive outcome (A : Type) : Type :=
| Returns (a : A)
| Fault
| OutOfFuel.
Arguments Returns {A} a.
Arguments Fault {A}.
Arguments OutOfFuel {A}.

(** A member function: from the object to a result, the object after
    the call and the events of the call, in order. *)
Definition M (A : Type) : Type := t -> outcome (A * t * list Event).

Definition ret {A} (a : A) : M A := fun this => Returns (a, this, []).

Definition bind {A B} (m : M A) (k : A -> M B) : M B :=
  fun this =>
    match m this with
    | Returns (a, this1, events1) =>
        match k a this1 with
        | Returns (b, this2, events2) => Returns (b, this2, events1 ++ events2)
        | Fault => Fault
        | OutOfFuel => OutOfFuel
        end
    | Fault => Fault
    | OutOfFuel => OutOfFuel
    end.

Declare Scope giw_scope.
Delimit Scope giw_scope with giw.
Notation "x <- y ; z" := (bind y (fun x => z))
  (at level 20, y at level 100, z at level 200, only parsing) : giw_scope.
Notation "y ;; z" := (bind y (fun _ => z))
  (at level 100, z at level 200, only parsing, right associativity) : giw_scope.
Open Scope giw_scope.

Definition fault {A} : M A := fun _ => Fault.

Definition emit (e : Event) : M unit := fun this => Returns (tt, this, [e]).

(** [cerr << line << endl] *)
Definition cerr (line : string) : M unit := emit (Cerr line).

(** [plot_callback_(arg)]; the [int] it returns is not used. *)
Definition plot_callback_ (arg : string) : M unit := emit (PlotCallback arg).

Definition set_process (p : QProcess.t) (this : t) : t :=
  mk p (server_ this) (client_ this) (received_messages_ this).
Definition set_server (srv : QTcpServer.t) (this : t) : t :=
  mk (process_ this) srv (client_ this) (received_messages_ this).
Definition set_client (c : option QTcpSocket.t) (this : t) : t :=
  mk (process_ this) (server_ this) c (received_messages_ this).
Definition set_received_messages (inbox : gmap MessageType UiMessage) (this : t) : t :=
  mk (process_ this) (server_ this) (client_ this) inbox.

(** [assert(client_ != nullptr)] *)
Definition assert_client : M unit :=
  fun this =>
    match client_ this with
    | Some _ => Returns (tt, this, [])
    | None => Fault
    end.

(** [client_->f(...)]: a call through the pointer, undefined when it is
    null. *)
Definition client {A} (f : QTcpSocket.t -> A * QTcpSocket.t) : M A :=
  fun this =>
    match client_ this with
    | Some socket =>
        let '(a, socket1) := f socket in
        Returns (a, set_client (Some socket1) this, [])
    | None => Fault
    end.

(** [server_.f(...)] *)
Definition server {A} (f : QTcpServer.t -> A * QTcpServer.t) : M A :=
  fun this =>
    let '(a, srv) := f (server_ this) in
    Returns (a, set_server srv this, []).

(** The constructor: no client yet, nothing received. *)
Definition new (process : QProcess.t) (srv : QTcpServer.t) : t :=
  mk process srv None ∅.

(** *** The map of received messages *)

(** [received_messages_[header] = message] *)
Definition store (header : MessageType) (message : UiMessage)
    (inbox : gmap MessageType UiMessage) : gmap MessageType UiMessage :=
  <[header := message]> inbox.

(** The body of [try_get_stored_message] on the map: [find], then
    [erase] when the key is found. *)
Definition take_stored (msg_type : MessageType) (inbox : gmap MessageType UiMessage)
  : option UiMessage * gmap MessageType UiMessage :=
  match inbox !! msg_type with
  | Some result => (Some result, delete msg_type inbox)
  | None => (None, inbox)
  end.

Definition try_get_stored_message (msg_type : MessageType) : M (option UiMessage) :=
  fun this =>
    let '(result, inbox) := take_stored msg_type (received_messages_ this) in
    Returns (result, set_received_messages inbox this, []).

(** The same assignment as a step of a member function. *)
Definition store_message (header : MessageType) (message : UiMessage) : M unit :=
  fun this =>
    Returns (tt, set_received_messages (store header message (received_messages_ this)) this, []).

(** *** Decoding *)

(** A fresh [PlotBufferRequestMessage] whose name is filled in by
    [receive_string]; what [receive_string] reports is not looked at. *)
Definition decode_plot_buffer_request : M UiMessage :=
  assert_client ;;
  buffer_name <- client (fun socket =>
                   let '(_, value, socket1) :=
                     MessageDecoder.receive_string socket EmptyString in
                   (value, socket1));
  ret (PlotBufferRequestMessage buffer_name).

Definition decode_get_observed_symbols_response : M UiMessage :=
  assert_client ;;
  observed_symbols <- client (fun socket =>
                        let '(_, container, socket1) :=
                          MessageDecoder.receive_symbol_list socket [] in
                        (container, socket1));
  ret (GetObservedSymbolsResponseMessage observed_symbols).

(** [MessageType header; client_->read(&header, sizeof(header))].  When
    fewer bytes are buffered, part of [header] stays uninitialised and
    the [switch] that follows reads an indeterminate value. *)
Definition read_header : M (option MessageType) :=
  data <- client (QTcpSocket.read (N.of_nat sizeof_MessageType));
  if Nat.ltb (length data) sizeof_MessageType then fault
  else ret (MessageType_of_value (le_value data)).

(** One round of the loop of [try_read_incoming_messages] once bytes
    are buffered: the read of the header and the [switch] on it. *)
Definition read_and_dispatch : M unit :=
  header <- read_header;
  match header with
  | Some PlotBufferRequest =>
      message <- decode_plot_buffer_request;
      store_message PlotBufferRequest message
  | Some GetObservedSymbolsResponse =>
      message <- decode_get_observed_symbols_response;
      store_message GetObservedSymbolsResponse message
  | _ => cerr "[giw] Received message with incorrect header"
  end.

(** The [do ... while] loop of [try_read_incoming_messages].  Each round
    waits, leaves when nothing is buffered, else reads and dispatches
    one header, and goes round again while bytes are buffered. *)
Fixpoint try_read_loop (fuel : nat) (msecs : Z) : M unit :=
  match fuel with
  | O => fun _ => OutOfFuel
  | S fuel' =>
      client (QTcpSocket.waitForReadyRead msecs) ;;
      available <- client (fun socket => (QTcpSocket.bytesAvailable socket, socket));
      if available =? 0 then ret tt
      else
        read_and_dispatch ;;
        available' <- client (fun socket => (QTcpSocket.bytesAvailable socket, socket));
        if 0 <? available' then try_read_loop fuel' msecs else ret tt
  end.

(** Every round takes a header from the bytes that can still be read,
    so one round more than there are such bytes is enough. *)
Definition try_read_fuel (this : t) : nat :=
  match client_ this with
  | Some socket => S (QTcpSocket.pending socket)
  | None => 1
  end.

Definition try_read_incoming_messages (msecs : Z) : M unit :=
  assert_client ;;
  fun this => try_read_loop (try_read_fuel this) msecs this.

(** The default argument of [try_read_incoming_messages]. *)
Definition default_msecs : Z := 3000.

Definition fetch_message (msg_type : MessageType) : M (option UiMessage) :=
  result <- try_get_stored_message msg_type;
  match result with
  | Some message => ret (Some message)
  | None =>
      try_read_incoming_messages default_msecs ;;
      try_get_stored_message msg_type
  end.

(** *** Connection *)

Definition wait_for_client : M unit :=
  fun this =>
    match client_ this with
    | None =>
        (connected <- server (QTcpServer.waitForNewConnection 10000);
         (if negb connected
          then cerr "[giw] No clients connected to ImageWatch server"
          else ret tt) ;;
         peer <- server QTcpServer.nextPendingConnection;
         fun this1 => Returns (tt, set_client peer this1, [])) this
    | Some _ => Returns (tt, this, [])
    end.

Definition host_port : Z := 9588.

Definition program : string :=
  "/Users/claudio.fernandes/workspace/pessoal/gdb-imagewatch/build/src/giwwindow.app/Contents/MacOS/giwwindow".

Definition arguments : list string := ["-style"%string; "fusion"%string].

(** [setProcessChannelMode] only redirects the output of the child and is
    left out. *)
Definition start : M bool :=
  listening <- server (QTcpServer.listen host_port);
  if negb listening then
    cerr "[giw] Could not start TCP server" ;;
    ret false
  else
    (fun this =>
       Returns (tt, set_process (QProcess.start program arguments (process_ this)) this, [])) ;;
    wait_for_client ;;
    fun this => Returns (bool_decide (client_ this <> None), this, []).

(** [kill] is the system call, given by the host: 0 when the signal
    could be sent. *)
Definition is_window_ready (kill : Z -> Z -> Z) (this : t) : bool :=
  bool_decide (client_ this <> None)
  && negb (QProcess.processId (process_ this) =? 0)%Z
  && (kill (QProcess.processId (process_ this)) 0 =? 0)%Z.

(** *** The public operations *)

Definition get_observed_symbols : M (list string) :=
  assert_client ;;
  (let message_composer := MessageComposer.push_type GetObservedSymbols MessageComposer.empty in
   client (fun socket => (tt, MessageComposer.send message_composer socket))) ;;
  response <- fetch_message GetObservedSymbolsResponse;
  match response with
  | Some (GetObservedSymbolsResponseMessage observed_symbols) => ret observed_symbols
  | Some (PlotBufferRequestMessage _) => fault
  | None => ret []
  end.

Definition set_available_symbols (available_vars : list string) : M unit :=
  assert_client ;;
  let message_composer :=
    MessageComposer.push_symbols available_vars
      (MessageComposer.push_type SetAvailableSymbols MessageComposer.empty) in
  client (fun socket => (tt, MessageComposer.send message_composer socket)).

(** The [while] loop of [run_event_loop]: take the stored plot request
    and call back, until none is stored.  A stored message that is not
    a [PlotBufferRequestMessage] makes the [dynamic_cast] null, and the
    access through it undefined. *)
Fixpoint plot_stored_requests (fuel : nat) : M unit :=
  match fuel with
  | O => fun _ => OutOfFuel
  | S fuel' =>
      plot_request_message <- try_get_stored_message PlotBufferRequest;
      match plot_request_message with
      | Some (PlotBufferRequestMessage buffer_name) =>
          plot_callback_ (c_str buffer_name) ;;
          plot_stored_requests fuel'
      | Some (GetObservedSymbolsResponseMessage _) => fault
      | None => ret tt
      end
  end.

(** [static_cast<int>(1000.0 / 5.0)] *)
Definition tick_msecs : Z := (1000 / 5)%Z.

Definition run_event_loop : M unit :=
  try_read_incoming_messages tick_msecs ;;
  fun this => plot_stored_requests (S (size (received_messages_ this))) this.

End GiwBridge.

(** ** What the peer sends

    The vocabulary of the statements below: the bytes of a message on the
    wire, and streams of such messages. *)

(** The key under which the bridge stores a message. *)
Definition kind_of (m : UiMessage) : MessageType :=
  match m with
  | GetObservedSymbolsResponseMessage _ => GetObservedSymbolsResponse
  | PlotBufferRequestMessage _ => PlotBufferRequest
  end.

(** Modelled from the spec: the frame the peer writes for a message, a
    kind tag followed by the payload of that kind (the peer's encoder is
    absent); it is what [MessageComposer] would send. *)
Definition encode_message (m : UiMessage) : list byte :=
  match m with
  | GetObservedSymbolsResponseMessage observed_symbols =>
      MessageComposer.push_symbols observed_symbols
        (MessageComposer.push_type GetObservedSymbolsResponse MessageComposer.empty)
  | PlotBufferRequestMessage buffer_name =>
      MessageComposer.push_string buffer_name
        (MessageComposer.push_type PlotBufferRequest MessageComposer.empty)
  end.

(** A length or a count that its prefix can hold. *)
Definition fits_size_t (n : N) : bool := n <? 256 ^ N.of_nat sizeof_size_t.

Definition string_fits (s : string) : bool :=
  fits_size_t (length_N (list_byte_of_string s)).

Definition message_fits (m : UiMessage) : bool :=
  match m with
  | GetObservedSymbolsResponseMessage observed_symbols =>
      fits_size_t (length_N observed_symbols) && forallb string_fits observed_symbols
  | PlotBufferRequestMessage buffer_name => string_fits buffer_name
  end.

(** One element of a stream: a whole frame, or a header value on its own. *)
Inductive Inbound : Type :=
| Frame (m : UiMessage)
| Tag (v : N).

Definition encode_inbound (i : Inbound) : list byte :=
  match i with
  | Frame m => encode_message m
  | Tag v => le_bytes sizeof_MessageType v
  end.

Definition encode_inbounds (items : list Inbound) : list byte :=
  concat (map encode_inbound items).

(** Whether the [switch] of [try_read_incoming_messages] has a case for
    the header value [v]. *)
Definition handled (v : N) : bool :=
  match MessageType_of_value (v mod 256 ^ N.of_nat sizeof_MessageType) with
  | Some PlotBufferRequest | Some GetObservedSymbolsResponse => true
  | _ => false
  end.

(** A stream of whole frames and of header values without a case. *)
Definition inbound_ok (i : Inbound) : bool :=
  match i with
  | Frame m => message_fits m
  | Tag v => negb (handled v)
  end.

(** What reading a stream leaves in the map, and on [cerr]. *)
Definition store_inbound (inbox : gmap MessageType UiMessage) (i : Inbound)
  : gmap MessageType UiMessage :=
  match i with
  | Frame m => GiwBridge.store (kind_of m) m inbox
  | Tag _ => inbox
  end.

Definition incorrect_header : GiwBridge.Event :=
  GiwBridge.Cerr "[giw] Received message with incorrect header".

Definition inbound_events (i : Inbound) : list GiwBridge.Event :=
  match i with
  | Frame _ => []
  | Tag _ => [incorrect_header]
  end.

(** Nothing more arrives: every wait to come times out. *)
Definition quiet (net : list QTcpSocket.NetEvent) : bool :=
  forallb (fun e => match e with
                    | QTcpSocket.Timeout => true
                    | QTcpSocket.Arrive _ => false
                    end) net.

(** The arguments of the calls of [plot_callback_] among some events. *)
Fixpoint plot_calls (events : list GiwBridge.Event) : list string :=
  match events with
  | [] => []
  | GiwBridge.PlotCallback arg :: events' => arg :: plot_calls events'
  | GiwBridge.Cerr _ :: events' => plot_calls events'
  end.

(** A bridge whose client is connected, with nothing buffered and [net]
    to come. *)
Definition connected (net : list QTcpSocket.NetEvent)
    (inbox : gmap MessageType UiMessage) : GiwBridge.t :=
  GiwBridge.mk (QProcess.mk 4242 4242) (QTcpServer.mk true true None [])
    (Some (QTcpSocket.mk [] net [])) inbox.

(** The frames of a sequence of plot requests, one per buffer name. *)
Definition plot_requests (names : list string) : list Inbound :=
  map (fun name => Frame (PlotBufferRequestMessage name)) names.

(** The call a tick makes when plot requests were stored: one, for the
    last name. *)
Definition last_plot_call (names : list string) : list GiwBridge.Event :=
  match last names with
  | Some name => [GiwBridge.PlotCallback (c_str name)]
  | None => []
  end.

(** The socket once [get_observed_symbols] has sent its request. *)
Definition request_sent (socket : QTcpSocket.t) : QTcpSocket.t :=
  MessageComposer.send
    (MessageComposer.push_type GetObservedSymbols MessageComposer.empty) socket.

(** The bytes that can still be read from the client of a bridge. *)
Definition pending_of (this : GiwBridge.t) : nat :=
  match GiwBridge.client_ this with
  | Some socket => QTcpSocket.pending socket
  | None => 0
  end.

(** ** What the map holds *)

(** Every stored message lies under its own kind: what the casts of
    [get_observed_symbols] and [run_event_loop] rely on. *)
Definition inbox_typed (inbox : gmap MessageType UiMessage) : Prop :=
  forall k m, inbox !! k = Some m -> kind_of m = k.

(** [stores inbox inbox']: [inbox'] is [inbox] after some messages were
    stored, each under its own kind. *)
Inductive stores (inbox : gmap MessageType UiMessage)
  : gmap MessageType UiMessage -> Prop :=
| stores_none : stores inbox inbox
| stores_more inbox' m :
    stores inbox inbox' -> stores inbox (GiwBridge.store (kind_of m) m inbox').

(** The states of a bridge: the constructor, then any public member
    function that returns. *)
Inductive reachable : GiwBridge.t -> Prop :=
| reachable_new process srv : reachable (GiwBridge.new process srv)
| reachable_start this result this' events :
    reachable this ->
    GiwBridge.start this = GiwBridge.Returns (result, this', events) ->
    reachable this'
| reachable_get_observed_symbols this result this' events :
    reachable this ->
    GiwBridge.get_observed_symbols this = GiwBridge.Returns (result, this', events) ->
    reachable this'
| reachable_set_available_symbols this available_vars result this' events :
    reachable this ->
    GiwBridge.set_available_symbols available_vars this
    = GiwBridge.Returns (result, this', events) ->
    reachable this'
| reachable_run_event_loop this result this' events :
    reachable this ->
    GiwBridge.run_event_loop this = GiwBridge.Returns (result, this', events) ->
    reachable this'.

(** ** The functions exported to the debugger

    The handler is a pointer to the bridge, null or not.  Python objects
    are the bytes objects and the lists that [giw_get_observed_buffers]
    builds; a slot of a list is null until it is set. *)

Unset Elimination Schemes.
Inductive PyObject : Type :=
| PyBytes (s : string)
| PyList (items : list (option PyObject)).
Set Elimination Schemes.

Inductive PyExcType : Type :=
| PyExc_RuntimeError
| PyExc_Exception.

(** What an exported function does outside the bridge: what the bridge
    itself does, a use of [RAISE_PY_EXCEPTION], or an exception that a
    call of the Python API has set itself, as [PyBytes_FromString] does
    whenever it returns null.  The macro belongs to
    [preprocessor_directives.h], which is absent: a use of it is recorded
    with its two arguments. *)
Inductive ApiEvent : Type :=
| Bridge (e : GiwBridge.Event)
| RAISE_PY_EXCEPTION (exception_type : PyExcType) (msg : string)
| PyErr_SetByPython.

(** The result of an exported function: what it returns, the bridge
    behind the handler after the call, and the events. *)
Definition Api (A : Type) : Type :=
  GiwBridge.outcome (A * option GiwBridge.t * list ApiEvent).

(** [app->f(...)] on a handler that is not null. *)
Definition call {A} (f : GiwBridge.M A) (app : GiwBridge.t) : Api A :=
  match f app with
  | GiwBridge.Returns (a, app', events) =>
      GiwBridge.Returns (a, Some app', map Bridge events)
  | GiwBridge.Fault => GiwBridge.Fault
  | GiwBridge.OutOfFuel => GiwBridge.OutOfFuel
  end.




(** [static_cast<int>(n)] for a [size_t]: the low 32 bits, signed. *)
Definition to_int (n : N) : Z :=
  let r := (Z.of_N n mod 2 ^ 32)%Z in
  if (r <? 2 ^ 31)%Z then r else (r - 2 ^ 32)%Z.

(** The [for] loop of [giw_get_observed_buffers] over the first [count]
    symbols: one bytes object per symbol, made from its C string, or
    nothing as soon as [PyBytes_FromString] returns null. *)
Fixpoint observed_symbols_items (PyBytes_FromString : string -> option PyObject)
    (count : nat) (observed_symbols : list string) : option (list (option PyObject)) :=
  match count, observed_symbols with
  | S count', symbol_name :: rest =>
      match PyBytes_FromString (c_str symbol_name) with
      | Some py_symbol_name =>
          match observed_symbols_items PyBytes_FromString count' rest with
          | Some items => Some (Some py_symbol_name :: items)
          | None => None
          end
      | None => None
      end
  | _, rest => Some (map (fun _ => None) rest)
  end.

(** [PyBytes_FromString] is the call of the Python API, given by the
    host: null, with an exception set by Python, when the object cannot
    be made.  The list is made with one null slot per symbol; the loop
    sets the slots below [static_cast<int>(observed_symbols.size())]. *)
Definition giw_get_observed_buffers (PyBytes_FromString : string -> option PyObject)
    (handler : option GiwBridge.t) : Api (option PyObject) :=
  match handler with
  | None =>
      GiwBridge.Returns
        (None, None,
         [RAISE_PY_EXCEPTION PyExc_Exception
            "giw_get_observed_buffers received null application handler"])
  | Some app =>
      match call GiwBridge.get_observed_symbols app with
      | GiwBridge.Returns (observed_symbols, app', events) =>
          let observed_symbols_sentinel := to_int (length_N observed_symbols) in
          match observed_symbols_items PyBytes_FromString
                  (Z.to_nat observed_symbols_sentinel) observed_symbols with
          | Some items => GiwBridge.Returns (Some (PyList items), app', events)
          | None => GiwBridge.Returns (None, app', events ++ [PyErr_SetByPython])
          end
      | GiwBridge.Fault => GiwBridge.Fault
      | GiwBridge.OutOfFuel => GiwBridge.OutOfFuel
      end
  end.


(** The call of a tick for the plot request that the map holds, if it
    holds one. *)
Definition stored_plot_call (inbox : gmap MessageType UiMessage) : list GiwBridge.Event :=
  match inbox !! PlotBufferRequest with
  | Some (PlotBufferRequestMessage name) => [GiwBridge.PlotCallback (c_str name)]
  | _ => []
  end.

(** The symbols of the response that the map holds, if it holds one. *)
Definition stored_symbols (inbox : gmap MessageType UiMessage) : list string :=
  match inbox !! GetObservedSymbolsResponse with
  | Some (GetObservedSymbolsResponseMessage observed_symbols) => observed_symbols
  | _ => []
  end.

(** * Properties *)

(** ** Fixed-width integers *)

Lemma to_N_byte_of_N n : Byte.to_N (byte_of_N n) = n mod 256.
Proof.
  unfold byte_of_N.
  destruct (Byte.of_N (n mod 256)) as [b|] eqn:E.
  - by apply Byte.to_of_N.
  - apply Byte.of_N_None_iff in E.
    pose proof (N.mod_upper_bound n 256). lia.
Qed.

Lemma length_le_bytes w n : length (le_bytes w n) = w.
Proof. revert n. induction w as [|w IH]; intros n; simpl; [done | by rewrite IH]. Qed.

Lemma le_value_le_bytes w n : le_value (le_bytes w n) = n mod 256 ^ N.of_nat w.
Proof.
  revert n. induction w as [|w IH]; intros n.
  - simpl. by rewrite N.mod_1_r.
  - cbn [le_bytes le_value]. rewrite to_N_byte_of_N, IH.
    rewrite Nat2N.inj_succ, N.pow_succ_r'.
    rewrite N.Div0.mod_mul_r. lia.
Qed.

Lemma le_value_le_bytes_small w n :
  n < 256 ^ N.of_nat w -> le_value (le_bytes w n) = n.
Proof. intros H. rewrite le_value_le_bytes. by apply N.mod_small. Qed.

Lemma length_N_app {A} (l1 l2 : list A) : length_N (l1 ++ l2) = length_N l1 + length_N l2.
Proof. unfold length_N. rewrite length_app. lia. Qed.

Lemma length_N_le_bytes w n : length_N (le_bytes w n) = N.of_nat w.
Proof. unfold length_N. by rewrite length_le_bytes. Qed.

(** ** The decoder reads back what the composer wrote *)

Section Decoder.

Import QTcpSocket MessageComposer MessageDecoder.

Variables (net : list NetEvent) (out : list byte).

Lemma read_exact_from_enough n buf :
  n <= length_N buf ->
  read_exact_from n buf net
  = (Some (take (N.to_nat n) buf), (drop (N.to_nat n) buf, net)).
Proof.
  intros H. apply N.leb_le in H.
  destruct net as [|e net']; cbn [read_exact_from]; by rewrite H.
Qed.

Lemma read_exact_app bs rest :
  read_exact (length_N bs) (QTcpSocket.mk (bs ++ rest) net out)
  = (Some bs, QTcpSocket.mk rest net out).
Proof.
  unfold read_exact. cbn [readBuffer network written].
  rewrite read_exact_from_enough by (rewrite length_N_app; lia).
  unfold length_N. rewrite Nat2N.id.
  by rewrite take_app_length, drop_app_length.
Qed.

Lemma receive_string_encode s rest value :
  string_fits s = true ->
  receive_string (QTcpSocket.mk (encode_string s ++ rest) net out) value
  = (true, s, QTcpSocket.mk rest net out).
Proof.
  intros Hfit. apply N.ltb_lt in Hfit.
  unfold receive_string, encode_string. rewrite <- app_assoc.
  rewrite <- (length_N_le_bytes sizeof_size_t (length_N (list_byte_of_string s))) at 1.
  rewrite read_exact_app.
  rewrite le_value_le_bytes_small by done.
  rewrite read_exact_app.
  by rewrite string_of_list_byte_of_string.
Qed.

Lemma length_encode_strings l : (length l <= length (encode_strings l))%nat.
Proof.
  induction l as [|s l IH]; [done|].
  unfold encode_strings in *. cbn [map concat].
  unfold encode_string at 1. rewrite !length_app, length_le_bytes.
  unfold sizeof_size_t. cbn [length]. lia.
Qed.

Lemma receive_strings_encode l : forall fuel rest container,
  forallb string_fits l = true ->
  (length l <= fuel)%nat ->
  receive_strings fuel (length_N l) (QTcpSocket.mk (encode_strings l ++ rest) net out) container
  = (true, container ++ l, QTcpSocket.mk rest net out).
Proof.
  induction l as [|s l IH]; intros fuel rest container Hfit Hfuel.
  - destruct fuel; cbn; by rewrite app_nil_r.
  - cbn [forallb] in Hfit. apply andb_true_iff in Hfit as [Hs Hl].
    destruct fuel as [|fuel]; [cbn [length] in Hfuel; lia|].
    cbn [receive_strings].
    replace (length_N (s :: l) =? 0) with false
      by (symmetry; apply N.eqb_neq; unfold length_N; cbn [length]; lia).
    unfold encode_strings. cbn [map concat]. rewrite <- app_assoc.
    rewrite receive_string_encode by done.
    replace (length_N (s :: l) - 1) with (length_N l)
      by (unfold length_N; cbn [length]; lia).
    fold (encode_strings l).
    rewrite IH by (done || (cbn [length] in Hfuel; lia)).
    by rewrite <- app_assoc.
Qed.

Lemma receive_symbol_list_encode l rest :
  fits_size_t (length_N l) = true ->
  forallb string_fits l = true ->
  receive_symbol_list
    (QTcpSocket.mk (le_bytes sizeof_size_t (length_N l) ++ encode_strings l ++ rest) net out) []
  = (true, l, QTcpSocket.mk rest net out).
Proof.
  intros Hcount Hfit. apply N.ltb_lt in Hcount.
  unfold receive_symbol_list.
  rewrite <- (length_N_le_bytes sizeof_size_t (length_N l)) at 1.
  rewrite read_exact_app.
  rewrite le_value_le_bytes_small by done.
  rewrite receive_strings_encode; [done | done |].
  unfold pending. cbn [readBuffer]. rewrite length_app.
  pose proof (length_encode_strings l). lia.
Qed.

End Decoder.

Import GiwBridge.

(** ** Running a member function *)

(** Unfolds the plumbing of [M] and the accessors, and nothing else. *)
Ltac run :=
  cbv [bind ret fault emit cerr plot_callback_ assert_client client server
       set_process set_server set_client set_received_messages
       try_get_stored_message store_message];
  cbn [process_ server_ client_ received_messages_
       QTcpSocket.readBuffer QTcpSocket.network QTcpSocket.written
       QTcpServer.port_free QTcpServer.isListening QTcpServer.inbound
       QTcpServer.pendingConnections
       fst snd negb app].

(** ** The map of received messages *)

Lemma take_stored_store k m (inbox : gmap MessageType UiMessage) :
  take_stored k (store k m inbox) = (Some m, delete k inbox).
Proof.
  unfold take_stored, store. rewrite lookup_insert_eq.
  by rewrite delete_insert_eq.
Qed.

Lemma take_stored_absent k (inbox : gmap MessageType UiMessage) :
  inbox !! k = None -> take_stored k inbox = (None, inbox).
Proof. intros H. unfold take_stored. by rewrite H. Qed.

Lemma take_stored_taken k (inbox : gmap MessageType UiMessage) :
  take_stored k (delete k inbox) = (None, delete k inbox).
Proof. apply take_stored_absent, lookup_delete_eq. Qed.

Lemma set_received_messages_id this :
  set_received_messages (received_messages_ this) this = this.
Proof. by destruct this. Qed.

(** C5. Storing [m1] and then [m2] under the same kind leaves the map as
    if [m1] had never been stored; its only entry for that kind holds
    [m2]; the next take returns [m2] and the one after returns nothing. *)
Theorem store_overwrites (k : MessageType) (m1 m2 : UiMessage) (this : GiwBridge.t) :
  let inbox := received_messages_ this in
  let stored := store k m2 (store k m1 inbox) in
  stored = store k m2 inbox
  /\ filter (fun entry => entry.1 = k) stored = {[ k := m2 ]}
  /\ (store_message k m1 ;;
      store_message k m2 ;;
      first <- try_get_stored_message k;
      second <- try_get_stored_message k;
      ret (first, second)) this
     = Returns ((Some m2, None), set_received_messages (delete k inbox) this, []).
Proof.
  cbn zeta. split; [|split].
  - unfold store. apply insert_insert_eq.
  - unfold store. rewrite insert_insert_eq.
    apply map_eq. intros i.
    destruct (decide (i = k)) as [->|Hne].
    + rewrite lookup_singleton_eq.
      apply map_lookup_filter_Some. split; [apply lookup_insert_eq | done].
    + rewrite lookup_singleton_ne by done.
      apply map_lookup_filter_None. right. intros x _ Hk. by apply Hne.
  - destruct this as [p srv c inbox].
    unfold bind, store_message, try_get_stored_message, ret, set_received_messages.
    cbn [received_messages_ process_ server_ client_].
    rewrite take_stored_store. cbn [received_messages_ process_ server_ client_].
    rewrite take_stored_taken. unfold store.
    by rewrite delete_insert_eq.
Qed.

(** C6. After a store under [k], the first take of [k] returns the stored
    message and the second returns nothing; a take on a map with no entry
    for [k] returns nothing, changes nothing and is no fault. *)
Theorem take_returns_once (k : MessageType) (m : UiMessage) (this : GiwBridge.t) :
  (store_message k m ;;
   first <- try_get_stored_message k;
   second <- try_get_stored_message k;
   ret (first, second)) this
  = Returns ((Some m, None),
             set_received_messages (delete k (received_messages_ this)) this, [])
  /\ (received_messages_ this !! k = None ->
      try_get_stored_message k this = Returns (None, this, [])).
Proof.
  split.
  - destruct this as [p srv c inbox].
    unfold bind, store_message, try_get_stored_message, ret, set_received_messages.
    cbn [received_messages_ process_ server_ client_].
    rewrite take_stored_store. cbn [received_messages_ process_ server_ client_].
    by rewrite take_stored_taken.
  - intros Habsent. unfold try_get_stored_message.
    rewrite take_stored_absent by done.
    by rewrite set_received_messages_id.
Qed.

Lemma take_returns_once_witness :
  (store_message PlotBufferRequest (PlotBufferRequestMessage "buf1") ;;
   first <- try_get_stored_message PlotBufferRequest;
   second <- try_get_stored_message PlotBufferRequest;
   ret (first, second)) (connected [] ∅)
  = Returns ((Some (PlotBufferRequestMessage "buf1"), None),
             set_received_messages (delete PlotBufferRequest ∅) (connected [] ∅), [])
  /\ try_get_stored_message PlotBufferRequest (connected [] ∅)
     = Returns (None, connected [] ∅, []).
Proof.
  destruct (take_returns_once PlotBufferRequest (PlotBufferRequestMessage "buf1")
              (connected [] ∅)) as [Hfirst Habsent].
  split; [exact Hfirst | apply Habsent; reflexivity].
Defined.

(** C10. A take of [k] leaves the entry of every other kind as it was,
    whether it returns a message or nothing; the other members of the
    bridge are not touched either. *)
Theorem take_keeps_other_kinds (k k' : MessageType) (this : GiwBridge.t) :
  k' <> k ->
  exists result this',
    try_get_stored_message k this = Returns (result, this', [])
    /\ received_messages_ this' !! k' = received_messages_ this !! k'
    /\ result = received_messages_ this !! k
    /\ process_ this' = process_ this
    /\ server_ this' = server_ this
    /\ client_ this' = client_ this.
Proof.
  intros Hne. unfold try_get_stored_message, take_stored.
  destruct (received_messages_ this !! k) as [m|] eqn:Hk.
  - eexists _, _. split; [reflexivity|].
    cbn [set_received_messages received_messages_ process_ server_ client_].
    by rewrite lookup_delete_ne.
  - eexists _, _. split; [reflexivity|]. by destruct this.
Qed.

Lemma take_keeps_other_kinds_witness :
  exists result this',
    try_get_stored_message PlotBufferRequest
      (connected [] (<[PlotBufferRequest := PlotBufferRequestMessage "buf1"]>
                       (<[GetObservedSymbolsResponse :=
                            GetObservedSymbolsResponseMessage ["x"%string]]> ∅)))
    = Returns (result, this', [])
    /\ received_messages_ this' !! GetObservedSymbolsResponse
       = Some (GetObservedSymbolsResponseMessage ["x"%string])
    /\ result = Some (PlotBufferRequestMessage "buf1").
Proof.
  destruct (take_keeps_other_kinds PlotBufferRequest GetObservedSymbolsResponse
              (connected [] (<[PlotBufferRequest := PlotBufferRequestMessage "buf1"]>
                               (<[GetObservedSymbolsResponse :=
                                    GetObservedSymbolsResponseMessage ["x"%string]]> ∅))))
    as (result & this' & Hrun & Hother & Hresult & _); [discriminate|].
  exists result, this'. split; [exact Hrun|]. split.
  - rewrite Hother. reflexivity.
  - rewrite Hresult. reflexivity.
Defined.

(** ** Connection and liveness *)

(** C7. [is_window_ready] answers true exactly when a client is connected
    and the companion process answers the probe: it has an identifier
    ([processId()] is not 0, a child is running) and [kill(pid, 0)]
    succeeds.  With no client it answers false whatever the process does. *)
Theorem is_window_ready_iff (kill : Z -> Z -> Z) (this : GiwBridge.t) :
  (is_window_ready kill this = true <->
   client_ this <> None
   /\ QProcess.processId (process_ this) <> 0%Z
   /\ kill (QProcess.processId (process_ this)) 0%Z = 0%Z)
  /\ (client_ this = None -> is_window_ready kill this = false).
Proof.
  unfold is_window_ready. split.
  - rewrite !andb_true_iff, bool_decide_eq_true, negb_true_iff.
    rewrite Z.eqb_neq, Z.eqb_eq. tauto.
  - intros Hnull. rewrite bool_decide_eq_false_2; [done|]. by intros H.
Qed.

Lemma is_window_ready_iff_witness :
  is_window_ready (fun _ _ => 0%Z) (connected [] ∅) = true
  /\ is_window_ready (fun _ _ => 0%Z)
       (GiwBridge.new (QProcess.mk 4242 4242) (QTcpServer.mk true true None [])) = false.
Proof.
  split.
  - apply (is_window_ready_iff (fun _ _ => 0%Z) (connected [] ∅)).
    repeat split; discriminate.
  - apply (is_window_ready_iff (fun _ _ => 0%Z)
             (GiwBridge.new (QProcess.mk 4242 4242) (QTcpServer.mk true true None []))).
    reflexivity.
Defined.

(** C8. [start] reports its outcome as a boolean and never stops on a
    fault.  It returns false when the server cannot listen, and when no
    peer connects during the wait of [waitForNewConnection(10000)]; when it
    returns, its result is true exactly when [client_] is a connection. *)
Theorem start_reports (this : GiwBridge.t) :
  (QTcpServer.listen host_port (server_ this) = (false, server_ this) ->
   start this = Returns (false, this, [Cerr "[giw] Could not start TCP server"]))
  /\ (forall srv,
        QTcpServer.listen host_port (server_ this) = (true, srv) ->
        client_ this = None ->
        QTcpServer.waitForNewConnection 10000 srv = (false, srv) ->
        QTcpServer.pendingConnections srv = [] ->
        exists this',
          start this
          = Returns (false, this', [Cerr "[giw] No clients connected to ImageWatch server"])
          /\ client_ this' = None)
  /\ (forall srv srv1 srv2 peer,
        QTcpServer.listen host_port (server_ this) = (true, srv) ->
        client_ this = None ->
        QTcpServer.waitForNewConnection 10000 srv = (true, srv1) ->
        QTcpServer.nextPendingConnection srv1 = (Some peer, srv2) ->
        exists this',
          start this = Returns (true, this', []) /\ client_ this' = Some peer)
  /\ (exists result this' events,
        start this = Returns (result, this', events)
        /\ (result = true -> client_ this' <> None)).
Proof.
  destruct this as [p srv0 c inbox].
  cbn [server_ process_ client_ received_messages_].
  split; [|split; [|split]].
  - intros Hlisten. unfold start. run. rewrite Hlisten. by run.
  - intros srv Hlisten -> Hwait Hpend.
    unfold start, wait_for_client. run. rewrite Hlisten. run.
    rewrite Hwait. run.
    unfold QTcpServer.nextPendingConnection. rewrite Hpend. run.
    eexists. split; reflexivity.
  - intros srv srv1 srv2 peer Hlisten -> Hwait Hnext.
    unfold start, wait_for_client. run. rewrite Hlisten. run.
    rewrite Hwait. run. rewrite Hnext. run.
    eexists. split; reflexivity.
  - destruct srv0 as [free listening inb pend].
    unfold start, wait_for_client, QTcpServer.listen,
      QTcpServer.waitForNewConnection, QTcpServer.nextPendingConnection.
    destruct listening, free, c as [socket|], inb as [peer|], pend as [|q pend];
      run; eexists _, _, _; (split; [reflexivity|]);
      cbn [client_]; rewrite ?bool_decide_eq_true; done.
Qed.

Lemma start_reports_witness :
  (exists this',
     start (GiwBridge.new (QProcess.mk 0 4242) (QTcpServer.mk true false None []))
     = Returns (false, this', [Cerr "[giw] No clients connected to ImageWatch server"])
     /\ client_ this' = None)
  /\ start (GiwBridge.new (QProcess.mk 0 4242) (QTcpServer.mk false false None []))
     = Returns (false, GiwBridge.new (QProcess.mk 0 4242) (QTcpServer.mk false false None []),
                [Cerr "[giw] Could not start TCP server"])
  /\ (exists this',
        start (GiwBridge.new (QProcess.mk 0 4242)
                 (QTcpServer.mk true false (Some (QTcpSocket.mk [] [] [])) []))
        = Returns (true, this', [])
        /\ client_ this' = Some (QTcpSocket.mk [] [] [])).
Proof.
  split; [|split].
  - destruct (start_reports
                (GiwBridge.new (QProcess.mk 0 4242) (QTcpServer.mk true false None [])))
      as (_ & Hnone & _).
    apply (Hnone (QTcpServer.mk true true None [])); reflexivity.
  - destruct (start_reports
                (GiwBridge.new (QProcess.mk 0 4242) (QTcpServer.mk false false None [])))
      as (Hlisten & _).
    apply Hlisten; reflexivity.
  - destruct (start_reports
                (GiwBridge.new (QProcess.mk 0 4242)
                   (QTcpServer.mk true false (Some (QTcpSocket.mk [] [] [])) [])))
      as (_ & _ & Hpeer & _).
    apply (Hpeer (QTcpServer.mk true true (Some (QTcpSocket.mk [] [] [])) [])
             (QTcpServer.mk true true None [QTcpSocket.mk [] [] []])
             (QTcpServer.mk true true None [])); reflexivity.
Defined.

(** ** The read-and-dispatch pass *)

Lemma try_read_loop_S fuel msecs :
  try_read_loop (S fuel) msecs
  = (client (QTcpSocket.waitForReadyRead msecs) ;;
     available <- client (fun socket => (QTcpSocket.bytesAvailable socket, socket));
     if available =? 0 then ret tt
     else
       read_and_dispatch ;;
       available' <- client (fun socket => (QTcpSocket.bytesAvailable socket, socket));
       if 0 <? available' then try_read_loop fuel msecs else ret tt).
Proof. reflexivity. Qed.

Lemma try_read_incoming_messages_no_bytes msecs p srv socket arrived socket1 inbox :
  QTcpSocket.waitForReadyRead msecs socket = (arrived, socket1) ->
  QTcpSocket.bytesAvailable socket1 = 0 ->
  try_read_incoming_messages msecs (GiwBridge.mk p srv (Some socket) inbox)
  = Returns (tt, GiwBridge.mk p srv (Some socket1) inbox, []).
Proof.
  intros Hwait Hnone.
  unfold try_read_incoming_messages, try_read_fuel. run.
  rewrite try_read_loop_S. run. rewrite Hwait. run. by rewrite Hnone.
Qed.

(** C9. When the wait of a pass ends with no byte buffered, the pass
    returns at once: nothing is logged and nobody is called back, the map
    of received messages is what it was, and nothing was read from or
    written to the socket. *)
Theorem pass_without_bytes (msecs : Z) (this : GiwBridge.t)
    (socket socket1 : QTcpSocket.t) (arrived : bool) :
  client_ this = Some socket ->
  QTcpSocket.waitForReadyRead msecs socket = (arrived, socket1) ->
  QTcpSocket.bytesAvailable socket1 = 0 ->
  try_read_incoming_messages msecs this
  = Returns (tt, set_client (Some socket1) this, [])
  /\ received_messages_ (set_client (Some socket1) this) = received_messages_ this
  /\ QTcpSocket.readBuffer socket1 = QTcpSocket.readBuffer socket
  /\ QTcpSocket.written socket1 = QTcpSocket.written socket.
Proof.
  intros Hclient Hwait Hnone.
  destruct this as [p srv c inbox]. cbn [client_] in Hclient. subst c.
  split; [|split; [reflexivity|]].
  - by apply (try_read_incoming_messages_no_bytes msecs p srv socket arrived).
  - unfold QTcpSocket.waitForReadyRead in Hwait.
    unfold QTcpSocket.bytesAvailable, length_N in Hnone.
    destruct (QTcpSocket.network socket) as [|[bs|] net];
      injection Hwait as _ <-; cbn [QTcpSocket.readBuffer QTcpSocket.written] in *;
      try done.
    split; [|done].
    destruct (QTcpSocket.readBuffer socket), bs; cbn in Hnone; try lia. done.
Qed.

Lemma pass_without_bytes_witness :
  try_read_incoming_messages tick_msecs (connected [QTcpSocket.Timeout] ∅)
  = Returns (tt, connected [] ∅, []).
Proof.
  apply (pass_without_bytes tick_msecs (connected [QTcpSocket.Timeout] ∅)
           (QTcpSocket.mk [] [QTcpSocket.Timeout] []) (QTcpSocket.mk [] [] []) false);
    reflexivity.
Defined.

Section Pass.

Variables (p : QProcess.t) (srv : QTcpServer.t).
Variables (net : list QTcpSocket.NetEvent) (out : list byte).

(** The bridge with [buf] buffered on its client socket. *)
Abbreviation at_buffer buf inbox :=
  (GiwBridge.mk p srv (Some (QTcpSocket.mk buf net out)) inbox).

Lemma read_header_value v rest inbox :
  read_header (at_buffer (le_bytes sizeof_MessageType v ++ rest) inbox)
  = Returns (MessageType_of_value (v mod 256 ^ N.of_nat sizeof_MessageType),
             at_buffer rest inbox, []).
Proof.
  unfold read_header. run.
  unfold QTcpSocket.read, QTcpSocket.bytesAvailable.
  cbn [QTcpSocket.readBuffer QTcpSocket.network QTcpSocket.written].
  rewrite length_N_app, length_N_le_bytes.
  replace (N.to_nat (N.min (N.of_nat sizeof_MessageType)
                       (N.of_nat sizeof_MessageType + length_N rest)))
    with (length (le_bytes sizeof_MessageType v))
    by (rewrite length_le_bytes; lia).
  rewrite take_app_length, drop_app_length. run.
  rewrite length_le_bytes, Nat.ltb_irrefl.
  by rewrite le_value_le_bytes.
Qed.

Lemma MessageType_of_value_value k :
  MessageType_of_value (MessageType_value k mod 256 ^ N.of_nat sizeof_MessageType) = Some k.
Proof. by destruct k. Qed.

Lemma read_and_dispatch_inbound i rest inbox :
  inbound_ok i = true ->
  read_and_dispatch (at_buffer (encode_inbound i ++ rest) inbox)
  = Returns (tt, at_buffer rest (store_inbound inbox i), inbound_events i).
Proof.
  intros Hok. unfold read_and_dispatch.
  destruct i as [[observed_symbols|buffer_name]|v];
    cbn [encode_inbound encode_message inbound_ok message_fits] in *.
  - apply andb_true_iff in Hok as [Hcount Hfit].
    unfold MessageComposer.push_symbols, MessageComposer.push_type,
      MessageComposer.empty. cbn [app]. rewrite <- !app_assoc.
    unfold bind at 1. rewrite read_header_value, MessageType_of_value_value.
    unfold decode_get_observed_symbols_response. run.
    rewrite receive_symbol_list_encode by done. by run.
  - unfold MessageComposer.push_string, MessageComposer.push_type,
      MessageComposer.empty. cbn [app]. rewrite <- !app_assoc.
    unfold bind at 1. rewrite read_header_value, MessageType_of_value_value.
    unfold decode_plot_buffer_request. run.
    rewrite receive_string_encode by done. by run.
  - unfold bind at 1. rewrite read_header_value.
    apply negb_true_iff in Hok. unfold handled in Hok.
    destruct (MessageType_of_value _) as [[]|]; try done.
Qed.

End Pass.

Lemma length_encode_inbound i : (1 <= length (encode_inbound i))%nat.
Proof.
  destruct i as [[l|s]|v]; cbn [encode_inbound encode_message];
    unfold MessageComposer.push_symbols, MessageComposer.push_string,
      MessageComposer.push_type, MessageComposer.empty;
    rewrite ?length_app, ?length_le_bytes; unfold sizeof_MessageType; lia.
Qed.

Lemma length_encode_inbounds items : (length items <= length (encode_inbounds items))%nat.
Proof.
  induction items as [|i items IH]; [done|].
  unfold encode_inbounds in *. cbn [map concat length]. rewrite length_app.
  pose proof (length_encode_inbound i). lia.
Qed.

Lemma encode_inbounds_nil items : encode_inbounds items = [] -> items = [].
Proof.
  intros H. pose proof (length_encode_inbounds items) as Hlen.
  rewrite H in Hlen. destruct items; [done | cbn in Hlen; lia].
Qed.

Lemma waitForReadyRead_quiet msecs buf net out :
  quiet net = true ->
  QTcpSocket.waitForReadyRead msecs (QTcpSocket.mk buf net out)
  = (false, QTcpSocket.mk buf (drop 1 net) out).
Proof.
  intros Hq. unfold QTcpSocket.waitForReadyRead.
  cbn [QTcpSocket.network QTcpSocket.readBuffer QTcpSocket.written].
  destruct net as [|[bs|] net']; done.
Qed.

Lemma quiet_drop n net : quiet net = true -> quiet (drop n net) = true.
Proof.
  revert net. induction n as [|n IH]; intros [|e net] H; try done.
  cbn [drop]. apply IH. cbn in H. by destruct e.
Qed.

(** A stream of whole frames and of header values without a case, all of
    it buffered when the first wait of the loop ends, and nothing arriving
    after it: the loop stores every frame in order under its kind, logs
    every stray header, and leaves when the buffer is empty. *)
Lemma try_read_loop_inbounds msecs p srv items :
  forall fuel socket arrived socket1 inbox,
    items <> [] ->
    forallb inbound_ok items = true ->
    QTcpSocket.waitForReadyRead msecs socket = (arrived, socket1) ->
    QTcpSocket.readBuffer socket1 = encode_inbounds items ->
    quiet (QTcpSocket.network socket1) = true ->
    (length items <= fuel)%nat ->
    try_read_loop fuel msecs (GiwBridge.mk p srv (Some socket) inbox)
    = Returns (tt,
               GiwBridge.mk p srv
                 (Some (QTcpSocket.mk []
                          (drop (length items - 1) (QTcpSocket.network socket1))
                          (QTcpSocket.written socket1)))
                 (foldl store_inbound inbox items),
               concat (map inbound_events items)).
Proof.
  induction items as [|i items IH];
    intros fuel socket arrived socket1 inbox Hne Hok Hwait Hbuf Hquiet Hfuel; [done|].
  destruct fuel as [|fuel]; [cbn [length] in Hfuel; lia|].
  cbn [forallb] in Hok. apply andb_true_iff in Hok as [Hi Hitems].
  destruct socket1 as [buf1 net1 out1].
  cbn [QTcpSocket.readBuffer QTcpSocket.network QTcpSocket.written] in *. subst buf1.
  rewrite try_read_loop_S. run. rewrite Hwait. run.
  unfold QTcpSocket.bytesAvailable at 1.
  cbn [QTcpSocket.readBuffer].
  replace (length_N (encode_inbounds (i :: items)) =? 0) with false.
  2:{ symmetry. apply N.eqb_neq. unfold length_N.
      pose proof (length_encode_inbounds (i :: items)). cbn [length] in *. lia. }
  unfold encode_inbounds. cbn [map concat].
  rewrite read_and_dispatch_inbound by done.
  fold (encode_inbounds items). run.
  unfold QTcpSocket.bytesAvailable. cbn [QTcpSocket.readBuffer].
  destruct items as [|i' items'].
  - change (0 <? length_N (encode_inbounds [])) with false. by cbn.
  - replace (0 <? length_N (encode_inbounds (i' :: items'))) with true.
    2:{ symmetry. apply N.ltb_lt. unfold length_N.
        pose proof (length_encode_inbounds (i' :: items')). cbn [length] in *. lia. }
    rewrite (IH fuel _ false (QTcpSocket.mk (encode_inbounds (i' :: items')) (drop 1 net1) out1));
      try done.
    + cbn [QTcpSocket.network QTcpSocket.written foldl length map concat].
      rewrite drop_drop.
      replace (1 + (S (length items') - 1))%nat with (S (S (length items')) - 1)%nat by lia.
      done.
    + by apply waitForReadyRead_quiet.
    + by apply quiet_drop.
    + cbn [length] in *. lia.
Qed.

(** ** The loops end

    Every round of the loop of [try_read_incoming_messages] takes its
    header out of the bytes that can still be read, and no call adds to
    them: the fuel the model gives the loop is never used up. *)

Section Pending.

Import QTcpSocket MessageDecoder.

Lemma waitForReadyRead_pending msecs s arrived s1 :
  waitForReadyRead msecs s = (arrived, s1) -> pending s1 = pending s.
Proof.
  unfold waitForReadyRead, pending.
  destruct (network s) as [|[bs|] net'] eqn:Hnet; intros [= <- <-];
    cbn [readBuffer network events_bytes event_bytes];
    rewrite ?Hnet, ?length_app; cbn [events_bytes event_bytes]; lia.
Qed.

Lemma read_exact_from_pending net : forall n buf r buf' net',
  read_exact_from n buf net = (r, (buf', net')) ->
  (length buf' + events_bytes net' <= length buf + events_bytes net)%nat.
Proof.
  induction net as [|e net IH]; intros n buf r buf' net'; cbn [read_exact_from].
  - destruct (n <=? length_N buf); intros [= <- <- <-];
      rewrite ?length_drop; cbn [length events_bytes]; lia.
  - destruct (n <=? length_N buf).
    + intros [= <- <- <-]. rewrite length_drop. lia.
    + destruct e as [bs|].
      * intros H. apply IH in H. rewrite length_app in H.
        cbn [events_bytes event_bytes]. lia.
      * intros [= <- <- <-]. cbn [length events_bytes event_bytes]. lia.
Qed.

Lemma read_exact_pending n s r s1 :
  read_exact n s = (r, s1) -> (pending s1 <= pending s)%nat.
Proof.
  unfold read_exact, pending.
  destruct (read_exact_from n (readBuffer s) (network s)) as [r0 [buf net]] eqn:H.
  intros [= <- <-]. cbn [readBuffer network].
  by apply read_exact_from_pending in H.
Qed.

Lemma receive_string_pending s value ok value' s1 :
  receive_string s value = (ok, value', s1) -> (pending s1 <= pending s)%nat.
Proof.
  unfold receive_string.
  destruct (read_exact (N.of_nat sizeof_size_t) s) as [[prefix|] sa] eqn:Ha.
  - destruct (read_exact (le_value prefix) sa) as [[raw|] sb] eqn:Hb;
      intros [= <- <- <-];
      apply read_exact_pending in Ha; apply read_exact_pending in Hb; lia.
  - intros [= <- <- <-]. by apply read_exact_pending in Ha.
Qed.

Lemma receive_strings_pending fuel : forall count s container ok container' s1,
  receive_strings fuel count s container = (ok, container', s1) ->
  (pending s1 <= pending s)%nat.
Proof.
  induction fuel as [|fuel IH]; intros count s container ok container' s1;
    cbn [receive_strings]; destruct (count =? 0); try (by intros [= <- <- <-]).
  destruct (receive_string s EmptyString) as [[[] symbol] sa] eqn:Ha.
  - intros H. apply IH in H. apply receive_string_pending in Ha. lia.
  - intros [= <- <- <-]. by apply receive_string_pending in Ha.
Qed.

Lemma receive_symbol_list_pending s container ok container' s1 :
  receive_symbol_list s container = (ok, container', s1) ->
  (pending s1 <= pending s)%nat.
Proof.
  unfold receive_symbol_list.
  destruct (read_exact (N.of_nat sizeof_size_t) s) as [[prefix|] sa] eqn:Ha.
  - intros H. apply receive_strings_pending in H.
    apply read_exact_pending in Ha. lia.
  - intros [= <- <- <-]. by apply read_exact_pending in Ha.
Qed.

Lemma read_exact_from_Some net : forall n buf bs buf' net',
  read_exact_from n buf net = (Some bs, (buf', net')) ->
  (N.to_nat n + (length buf' + events_bytes net') = length buf + events_bytes net)%nat.
Proof.
  induction net as [|e net IH]; intros n buf bs buf' net'; cbn [read_exact_from].
  - destruct (n <=? length_N buf) eqn:Hn; [|done].
    intros [= <- <- <-]. apply N.leb_le in Hn. unfold length_N in Hn.
    rewrite length_drop. lia.
  - destruct (n <=? length_N buf) eqn:Hn.
    + intros [= <- <- <-]. apply N.leb_le in Hn. unfold length_N in Hn.
      rewrite length_drop. lia.
    + destruct e as [chunk|]; [|done].
      intros H. apply IH in H. rewrite length_app in H.
      cbn [events_bytes event_bytes]. lia.
Qed.

Lemma receive_string_true s value value' s1 :
  receive_string s value = (true, value', s1) ->
  (sizeof_size_t + pending s1 <= pending s)%nat.
Proof.
  unfold receive_string, read_exact.
  destruct (read_exact_from (N.of_nat sizeof_size_t) (readBuffer s) (network s))
    as [[prefix|] [bufa neta]] eqn:Ha; [|done].
  cbn [readBuffer network written].
  destruct (read_exact_from (le_value prefix) bufa neta) as [[raw|] [bufb netb]] eqn:Hb;
    [|done].
  intros [= <- <-]. apply read_exact_from_Some in Ha. apply read_exact_from_Some in Hb.
  unfold pending. cbn [readBuffer network]. lia.
Qed.

(** The fuel of [receive_strings] is never what ends it: above the bytes
    that can still be read, more fuel changes nothing. *)
Lemma receive_strings_fuel fuel : forall count s container,
  (pending s < fuel)%nat ->
  receive_strings (S fuel) count s container = receive_strings fuel count s container.
Proof.
  induction fuel as [|fuel IH]; intros count s container Hfuel; [lia|].
  cbn [receive_strings]. destruct (count =? 0); [done|].
  destruct (receive_string s EmptyString) as [[[] symbol] s1] eqn:Hs; [|done].
  apply receive_string_true in Hs. unfold sizeof_size_t in Hs.
  rewrite <- IH by lia. done.
Qed.

End Pending.

Lemma plot_calls_app events1 events2 :
  plot_calls (events1 ++ events2) = plot_calls events1 ++ plot_calls events2.
Proof.
  induction events1 as [|[line|arg] events1 IH]; cbn [app plot_calls]; [done|done|].
  by rewrite IH.
Qed.

(** One round that returns has taken bytes from the socket, has called
    nobody back and has kept the client. *)
Lemma read_and_dispatch_sound this :
  match read_and_dispatch this with
  | Returns (_, this', events) =>
      client_ this' <> None
      /\ (pending_of this' < pending_of this)%nat
      /\ plot_calls events = []
      /\ process_ this' = process_ this
      /\ server_ this' = server_ this
  | Fault => True
  | OutOfFuel => False
  end.
Proof.
  destruct this as [p srv [socket|] inbox]; [|done].
  unfold read_and_dispatch, read_header. run.
  unfold QTcpSocket.read. cbn [fst snd].
  set (n := N.to_nat (N.min (N.of_nat sizeof_MessageType) (QTcpSocket.bytesAvailable socket))).
  destruct (Nat.ltb (length (take n (QTcpSocket.readBuffer socket))) sizeof_MessageType)
    eqn:Hshort; [done|].
  apply Nat.ltb_ge in Hshort. rewrite length_take in Hshort.
  assert (Hdrop : (QTcpSocket.pending
                     (QTcpSocket.mk (drop n (QTcpSocket.readBuffer socket))
                        (QTcpSocket.network socket) (QTcpSocket.written socket))
                   < QTcpSocket.pending socket)%nat).
  { unfold QTcpSocket.pending. cbn [QTcpSocket.readBuffer QTcpSocket.network].
    rewrite length_drop. unfold sizeof_MessageType in Hshort. lia. }
  destruct (MessageType_of_value _) as [[]|]; run;
    try (unfold pending_of; cbn [client_]; repeat split; done).
  - unfold decode_get_observed_symbols_response. run.
    destruct (MessageDecoder.receive_symbol_list _ _) as [[ok container] s1] eqn:Hdec.
    apply receive_symbol_list_pending in Hdec. run.
    unfold pending_of. cbn [client_]. repeat split; try done. lia.
  - unfold decode_plot_buffer_request. run.
    destruct (MessageDecoder.receive_string _ _) as [[ok value] s1] eqn:Hdec.
    apply receive_string_pending in Hdec. run.
    unfold pending_of. cbn [client_]. repeat split; try done. lia.
Qed.

Lemma try_read_loop_sound msecs fuel : forall this,
  (pending_of this < fuel)%nat ->
  match try_read_loop fuel msecs this with
  | Returns (_, this', events) =>
      client_ this' <> None
      /\ plot_calls events = []
      /\ process_ this' = process_ this
      /\ server_ this' = server_ this
  | Fault => True
  | OutOfFuel => False
  end.
Proof.
  induction fuel as [|fuel IH]; intros this Hfuel; [lia|].
  rewrite try_read_loop_S.
  destruct this as [p srv [socket|] inbox]; [|done].
  unfold pending_of in Hfuel. cbn [client_] in Hfuel. run.
  destruct (QTcpSocket.waitForReadyRead msecs socket) as [arrived s1] eqn:Hwait.
  apply waitForReadyRead_pending in Hwait. run.
  destruct (QTcpSocket.bytesAvailable s1 =? 0); [done|].
  pose proof (read_and_dispatch_sound (GiwBridge.mk p srv (Some s1) inbox)) as Hround.
  destruct (read_and_dispatch _) as [[[u this2] events2]| |]; [|done|done].
  destruct Hround as (Hclient & Hless & Hcalls & Hp & Hsrv).
  destruct this2 as [p2 srv2 [s2|] inbox2]; [|done].
  unfold pending_of in Hless. cbn [client_ process_ server_] in *. subst p2 srv2. run.
  destruct (0 <? QTcpSocket.bytesAvailable s2).
  - specialize (IH (GiwBridge.mk p srv (Some s2) inbox2)).
    unfold pending_of in IH. cbn [client_] in IH.
    destruct (try_read_loop fuel msecs _) as [[[u3 this3] events3]| |];
      [|done|apply IH; lia].
    destruct IH as (H1 & H2 & H3 & H4); [lia|].
    repeat split; try done. by rewrite plot_calls_app, Hcalls, H2.
  - repeat split; try done. by rewrite app_nil_r.
Qed.

(** The pass never runs out of fuel; when it returns, the client is still
    there and nobody was called back. *)
Lemma try_read_incoming_messages_sound msecs this :
  match try_read_incoming_messages msecs this with
  | Returns (_, this', events) =>
      client_ this' <> None
      /\ plot_calls events = []
      /\ process_ this' = process_ this
      /\ server_ this' = server_ this
  | Fault => True
  | OutOfFuel => False
  end.
Proof.
  unfold try_read_incoming_messages, try_read_fuel.
  destruct this as [p srv [socket|] inbox]; [|done]. run.
  pose proof (try_read_loop_sound msecs (S (QTcpSocket.pending socket))
                (GiwBridge.mk p srv (Some socket) inbox)) as H.
  unfold pending_of in H. cbn [client_] in H.
  destruct (try_read_loop _ _ _) as [[[u this1] events1]| |]; [|done|apply H; lia].
  apply H. lia.
Qed.

(** A name without a NUL reaches the callback whole. *)
Lemma c_str_without_nul s :
  Forall (fun c => c <> Ascii.zero) (list_ascii_of_string s) -> c_str s = s.
Proof.
  induction s as [|c s IH]; [done|].
  cbn [list_ascii_of_string c_str]. intros H. apply Forall_cons in H as [Hc Hs].
  apply Ascii.eqb_neq in Hc. rewrite Hc. by rewrite IH.
Qed.

(** The pass over a buffered stream, from the first wait on. *)
Lemma try_read_incoming_messages_inbounds msecs p srv socket arrived socket1 inbox items :
  forallb inbound_ok items = true ->
  QTcpSocket.waitForReadyRead msecs socket = (arrived, socket1) ->
  QTcpSocket.readBuffer socket1 = encode_inbounds items ->
  quiet (QTcpSocket.network socket1) = true ->
  try_read_incoming_messages msecs (GiwBridge.mk p srv (Some socket) inbox)
  = Returns (tt,
             GiwBridge.mk p srv
               (Some (QTcpSocket.mk []
                        (drop (length items - 1) (QTcpSocket.network socket1))
                        (QTcpSocket.written socket1)))
               (foldl store_inbound inbox items),
             concat (map inbound_events items)).
Proof.
  intros Hok Hwait Hbuf Hquiet.
  unfold try_read_incoming_messages, try_read_fuel. run.
  destruct items as [|i items].
  - rewrite try_read_loop_S. run. rewrite Hwait. run.
    unfold QTcpSocket.bytesAvailable. rewrite Hbuf.
    change (length_N (encode_inbounds []) =? 0) with true.
    destruct socket1 as [buf1 net1 out1].
    cbn [QTcpSocket.readBuffer] in Hbuf. subst buf1. by cbn.
  - rewrite (try_read_loop_inbounds msecs p srv (i :: items) _ socket arrived socket1);
      try done.
    apply waitForReadyRead_pending in Hwait.
    pose proof (length_encode_inbounds (i :: items)) as Hlen.
    rewrite <- Hbuf in Hlen. rewrite <- Hwait. unfold QTcpSocket.pending. lia.
Qed.

(** Two frames of one kind read in one pass: the second takes the place
    of the first in the map. *)
Lemma pass_stores_last_of_kind msecs p srv socket arrived socket1 inbox m1 m2 :
  kind_of m1 = kind_of m2 ->
  message_fits m1 = true ->
  message_fits m2 = true ->
  QTcpSocket.waitForReadyRead msecs socket = (arrived, socket1) ->
  QTcpSocket.readBuffer socket1 = encode_message m1 ++ encode_message m2 ->
  quiet (QTcpSocket.network socket1) = true ->
  exists socket',
    try_read_incoming_messages msecs (GiwBridge.mk p srv (Some socket) inbox)
    = Returns (tt, GiwBridge.mk p srv (Some socket') (store (kind_of m2) m2 inbox), []).
Proof.
  intros Hkind Hfit1 Hfit2 Hwait Hbuf Hquiet.
  rewrite (try_read_incoming_messages_inbounds msecs p srv socket arrived socket1 inbox
             [Frame m1; Frame m2]); try done.
  - eexists. cbn [foldl store_inbound map concat inbound_events app].
    rewrite Hkind. unfold store. by rewrite insert_insert_eq.
  - cbn [forallb inbound_ok]. by rewrite Hfit1, Hfit2.
  - rewrite Hbuf. unfold encode_inbounds. cbn [map concat encode_inbound].
    by rewrite app_nil_r.
Qed.

(** ** The event loop *)

Lemma plot_stored_requests_absent fuel this :
  received_messages_ this !! PlotBufferRequest = None ->
  plot_stored_requests (S fuel) this = Returns (tt, this, []).
Proof.
  intros H. cbn [plot_stored_requests]. run.
  rewrite take_stored_absent by done. run. by destruct this.
Qed.

Lemma plot_stored_requests_present fuel this name :
  received_messages_ this !! PlotBufferRequest = Some (PlotBufferRequestMessage name) ->
  plot_stored_requests (S (S fuel)) this
  = Returns (tt,
             set_received_messages (delete PlotBufferRequest (received_messages_ this)) this,
             [PlotCallback (c_str name)]).
Proof.
  intros H. cbn [plot_stored_requests]. run.
  unfold take_stored at 1. rewrite H. run.
  by rewrite take_stored_taken.
Qed.

Lemma lookup_Some_size (inbox : gmap MessageType UiMessage) k m :
  inbox !! k = Some m -> exists n, size inbox = S n.
Proof.
  intros H. destruct (size inbox) as [|n] eqn:Hsize; [|by exists n].
  apply map_size_empty_inv in Hsize. subst inbox. by rewrite lookup_empty in H.
Qed.

(** The loop of [run_event_loop] never runs out of fuel, calls back at
    most once, and leaves no plot request stored. *)
Lemma plot_stored_requests_sound this :
  match plot_stored_requests (S (size (received_messages_ this))) this with
  | Returns (_, this', events) =>
      events = match received_messages_ this !! PlotBufferRequest with
               | Some (PlotBufferRequestMessage name) => [PlotCallback (c_str name)]
               | _ => []
               end
      /\ received_messages_ this' !! PlotBufferRequest = None
      /\ client_ this' = client_ this
  | Fault => True
  | OutOfFuel => False
  end.
Proof.
  destruct (received_messages_ this !! PlotBufferRequest) as [[l|name]|] eqn:H.
  - cbn [plot_stored_requests]. run. unfold take_stored. by rewrite H.
  - destruct (lookup_Some_size _ _ _ H) as [n ->].
    rewrite (plot_stored_requests_present n this name H).
    cbn [set_received_messages received_messages_ client_].
    by rewrite lookup_delete_eq.
  - by rewrite plot_stored_requests_absent.
Qed.

Lemma foldl_plot_requests names : forall inbox : gmap MessageType UiMessage,
  foldl store_inbound inbox (plot_requests names) !! PlotBufferRequest
  = match last names with
    | Some name => Some (PlotBufferRequestMessage name)
    | None => inbox !! PlotBufferRequest
    end.
Proof.
  induction names as [|name names IH]; intros inbox; [done|].
  cbn [plot_requests map foldl]. fold (plot_requests names). rewrite IH.
  destruct names as [|name' names'].
  - cbn [last store_inbound kind_of]. unfold store. by rewrite lookup_insert_eq.
  - change (last (name :: name' :: names')) with (last (name' :: names')).
    destruct (last (name' :: names')) eqn:Hlast; [done|].
    by apply last_None in Hlast.
Qed.

Lemma plot_requests_ok names :
  forallb string_fits names = true -> forallb inbound_ok (plot_requests names) = true.
Proof.
  induction names as [|name names IH]; [done|].
  cbn [forallb plot_requests map inbound_ok message_fits].
  rewrite !andb_true_iff. intros [H1 H2]. split; [done | by apply IH].
Qed.

Lemma plot_requests_events names :
  concat (map inbound_events (plot_requests names)) = [].
Proof. induction names as [|name names IH]; [done | exact IH]. Qed.

(** C1, as the code has it.  The map holds one message per kind, so the
    plot requests read before the loop of a tick overwrite each other: a
    tick never runs out of fuel and calls [plot_callback_] at most once,
    whatever arrives; when the frames of [names] are what its pass reads,
    it makes one call, for the last name, and none when [names] is empty
    and no request was stored before; no request stays stored. *)
Theorem tick_plots_last_request :
  (forall this, run_event_loop this <> OutOfFuel)
  /\ (forall this result this' events,
        run_event_loop this = Returns (result, this', events) ->
        (length (plot_calls events) <= 1)%nat
        /\ received_messages_ this' !! PlotBufferRequest = None)
  /\ (forall this socket arrived socket1 names,
        client_ this = Some socket ->
        QTcpSocket.waitForReadyRead tick_msecs socket = (arrived, socket1) ->
        QTcpSocket.readBuffer socket1 = encode_inbounds (plot_requests names) ->
        quiet (QTcpSocket.network socket1) = true ->
        forallb string_fits names = true ->
        (names = [] -> received_messages_ this !! PlotBufferRequest = None) ->
        exists this',
          run_event_loop this = Returns (tt, this', last_plot_call names)
          /\ received_messages_ this' !! PlotBufferRequest = None).
Proof.
  split; [|split].
  - intros this. unfold run_event_loop, bind.
    pose proof (try_read_incoming_messages_sound tick_msecs this) as Hpass.
    destruct (try_read_incoming_messages tick_msecs this) as [[[u this1] events1]| |];
      [|done|done].
    pose proof (plot_stored_requests_sound this1) as Hloop.
    by destruct (plot_stored_requests _ this1) as [[[u2 this2] events2]| |].
  - intros this result this' events. unfold run_event_loop, bind.
    pose proof (try_read_incoming_messages_sound tick_msecs this) as Hpass.
    destruct (try_read_incoming_messages tick_msecs this) as [[[u this1] events1]| |];
      [|done|done].
    destruct Hpass as (_ & Hcalls & _).
    pose proof (plot_stored_requests_sound this1) as Hloop.
    destruct (plot_stored_requests _ this1) as [[[u2 this2] events2]| |]; [|done|done].
    destruct Hloop as (Hevents & Hnone & _).
    intros [= <- <- <-]. split; [|done].
    rewrite plot_calls_app, Hcalls, Hevents.
    destruct (received_messages_ this1 !! PlotBufferRequest) as [[l|name]|]; cbn; lia.
  - intros this socket arrived socket1 names Hclient Hwait Hbuf Hquiet Hfit Hempty.
    destruct this as [p srv c inbox]. cbn [client_ received_messages_] in *. subst c.
    unfold run_event_loop, bind.
    rewrite (try_read_incoming_messages_inbounds tick_msecs p srv socket arrived socket1
               inbox (plot_requests names)); try done; [|by apply plot_requests_ok].
    rewrite plot_requests_events.
    cbn [received_messages_ app].
    pose proof (foldl_plot_requests names inbox) as Hlast.
    unfold last_plot_call.
    destruct (last names) as [name|] eqn:Hname.
    + destruct (lookup_Some_size _ _ _ Hlast) as [n ->].
      rewrite (plot_stored_requests_present n _ name) by done.
      eexists. split; [reflexivity|].
      cbn [set_received_messages received_messages_]. by rewrite lookup_delete_eq.
    + apply last_None in Hname. rewrite (Hempty Hname) in Hlast.
      rewrite plot_stored_requests_absent by done.
      eexists. split; [reflexivity | done].
Qed.

Lemma tick_plots_last_request_witness :
  exists this',
    run_event_loop
      (connected [QTcpSocket.Arrive
                    (encode_inbounds (plot_requests ["buf1"; "buf2"; "buf3"]%string))] ∅)
    = Returns (tt, this', [PlotCallback "buf3"])
    /\ received_messages_ this' !! PlotBufferRequest = None.
Proof.
  destruct tick_plots_last_request as (_ & _ & Hlast).
  apply (Hlast (connected [QTcpSocket.Arrive
                             (encode_inbounds (plot_requests ["buf1"; "buf2"; "buf3"]%string))] ∅)
           (QTcpSocket.mk [] [QTcpSocket.Arrive
                                (encode_inbounds (plot_requests ["buf1"; "buf2"; "buf3"]%string))] [])
           true
           (QTcpSocket.mk (encode_inbounds (plot_requests ["buf1"; "buf2"; "buf3"]%string)) [] [])
           ["buf1"; "buf2"; "buf3"]%string); reflexivity.
Defined.

(** C1 as the spec has it fails: two plot requests, "buf1" then "buf2",
    arrive together before a tick; the tick calls back once, for "buf2",
    and "buf1" is never plotted. *)
Lemma tick_two_requests_counterexample :
  exists this',
    run_event_loop
      (connected [QTcpSocket.Arrive
                    (encode_message (PlotBufferRequestMessage "buf1")
                     ++ encode_message (PlotBufferRequestMessage "buf2"))] ∅)
    = Returns (tt, this', [PlotCallback "buf2"])
    /\ plot_calls [PlotCallback "buf2"] <> ["buf1"; "buf2"]%string
    /\ received_messages_ this' = ∅.
Proof.
  eexists. split; [vm_compute; reflexivity|]. split; [discriminate | reflexivity].
Qed.

(** ** The request for the observed symbols *)

Lemma get_observed_symbols_none p srv socket inbox this2 events :
  fetch_message GetObservedSymbolsResponse
    (GiwBridge.mk p srv (Some (request_sent socket)) inbox)
  = Returns (None, this2, events) ->
  get_observed_symbols (GiwBridge.mk p srv (Some socket) inbox)
  = Returns ([], this2, events).
Proof.
  intros Hnone. unfold get_observed_symbols. run.
  unfold request_sent in Hnone. rewrite Hnone. by rewrite app_nil_r.
Qed.

Lemma get_observed_symbols_no_bytes p srv socket inbox arrived socket1 :
  inbox !! GetObservedSymbolsResponse = None ->
  QTcpSocket.waitForReadyRead default_msecs (request_sent socket) = (arrived, socket1) ->
  QTcpSocket.bytesAvailable socket1 = 0 ->
  get_observed_symbols (GiwBridge.mk p srv (Some socket) inbox)
  = Returns ([], GiwBridge.mk p srv (Some socket1) inbox, []).
Proof.
  intros Habsent Hwait Hbytes.
  apply get_observed_symbols_none. unfold fetch_message. run.
  rewrite take_stored_absent by done. run.
  rewrite (try_read_incoming_messages_no_bytes default_msecs p srv (request_sent socket)
             arrived socket1) by done.
  run. by rewrite take_stored_absent.
Qed.

(** The call never runs out of fuel. *)
Lemma get_observed_symbols_total this : get_observed_symbols this <> OutOfFuel.
Proof.
  destruct this as [p srv [socket|] inbox]; [|done].
  unfold get_observed_symbols, fetch_message. run.
  unfold take_stored at 1. cbn [received_messages_].
  destruct (inbox !! GetObservedSymbolsResponse) as [[l|name]|]; run; try done.
  pose proof (try_read_incoming_messages_sound default_msecs
                (GiwBridge.mk p srv
                   (Some (MessageComposer.send
                            (MessageComposer.push_type GetObservedSymbols MessageComposer.empty)
                            socket)) inbox)) as Hpass.
  destruct (try_read_incoming_messages default_msecs _) as [[[u this1] events1]| |];
    [|done|done].
  run. destruct (take_stored GetObservedSymbolsResponse (received_messages_ this1))
    as [[[l|name]|] inbox1]; by run.
Qed.

(** C3. When [fetch_message] obtains no response, [get_observed_symbols]
    returns the empty sequence, and no fault; so it does when the wait of
    its pass ends with nothing buffered, as when the peer has closed the
    connection without answering. *)
Theorem no_response_gives_empty (this : GiwBridge.t) (socket : QTcpSocket.t) :
  client_ this = Some socket ->
  (forall this2 events,
     fetch_message GetObservedSymbolsResponse
       (set_client (Some (request_sent socket)) this)
     = Returns (None, this2, events) ->
     get_observed_symbols this = Returns ([], this2, events))
  /\ (forall arrived socket1,
        received_messages_ this !! GetObservedSymbolsResponse = None ->
        QTcpSocket.waitForReadyRead default_msecs (request_sent socket) = (arrived, socket1) ->
        QTcpSocket.bytesAvailable socket1 = 0 ->
        get_observed_symbols this = Returns ([], set_client (Some socket1) this, [])).
Proof.
  intros Hclient. destruct this as [p srv c inbox]. cbn [client_] in Hclient. subst c.
  split.
  - intros this2 events. apply get_observed_symbols_none.
  - intros arrived socket1. apply get_observed_symbols_no_bytes.
Qed.

Lemma no_response_gives_empty_witness :
  get_observed_symbols (connected [] ∅)
  = Returns ([], set_client (Some (request_sent (QTcpSocket.mk [] [] []))) (connected [] ∅), []).
Proof.
  destruct (no_response_gives_empty (connected [] ∅) (QTcpSocket.mk [] [] []))
    as (_ & Hclosed); [reflexivity|].
  apply (Hclosed false); reflexivity.
Defined.

(** C2 as the spec has it fails: the peer lets one wait time out, then
    delivers the response ["x"; "y"; "z"] and closes.  The call does not
    wait again: it returns the empty sequence, and the response is still
    to be read. *)
Lemma late_response_counterexample :
  get_observed_symbols
    (connected [QTcpSocket.Timeout;
                QTcpSocket.Arrive
                  (encode_message (GetObservedSymbolsResponseMessage ["x"; "y"; "z"]%string))] ∅)
  = Returns ([],
             set_client
               (Some (QTcpSocket.mk []
                        [QTcpSocket.Arrive
                           (encode_message
                              (GetObservedSymbolsResponseMessage ["x"; "y"; "z"]%string))]
                        (le_bytes sizeof_MessageType (MessageType_value GetObservedSymbols))))
               (connected [] ∅),
             [])
  /\ ([] : list string) <> ["x"; "y"; "z"]%string.
Proof. split; [vm_compute; reflexivity | discriminate]. Qed.

(** ** Headers without a case *)

(** C4, as the code has it.  A header value for which the [switch] has no
    case is logged and costs the header alone: nothing is stored for it,
    the client is kept, and the pass goes on at the byte after the header.
    A whole frame that starts there is stored as it was sent. *)
Theorem stray_header_skipped (msecs : Z) (this : GiwBridge.t)
    (socket socket1 : QTcpSocket.t) (arrived : bool) (v : N) (m : UiMessage) :
  client_ this = Some socket ->
  handled v = false ->
  QTcpSocket.waitForReadyRead msecs socket = (arrived, socket1) ->
  QTcpSocket.readBuffer socket1 = le_bytes sizeof_MessageType v ++ encode_message m ->
  quiet (QTcpSocket.network socket1) = true ->
  message_fits m = true ->
  exists socket',
    try_read_incoming_messages msecs this
    = Returns (tt,
               set_received_messages (store (kind_of m) m (received_messages_ this))
                 (set_client (Some socket') this),
               [incorrect_header])
    /\ QTcpSocket.readBuffer socket' = []
    /\ QTcpSocket.written socket' = QTcpSocket.written socket.
Proof.
  intros Hclient Hstray Hwait Hbuf Hquiet Hfit.
  destruct this as [p srv c inbox]. cbn [client_ received_messages_] in *. subst c.
  rewrite (try_read_incoming_messages_inbounds msecs p srv socket arrived socket1 inbox
             [Tag v; Frame m]); try done.
  - eexists. split; [reflexivity|]. split; [done|].
    unfold QTcpSocket.waitForReadyRead in Hwait.
    destruct (QTcpSocket.network socket) as [|[bs|] net']; by injection Hwait as _ <-.
  - cbn [forallb inbound_ok]. by rewrite Hstray, Hfit.
  - rewrite Hbuf. unfold encode_inbounds. cbn [map concat encode_inbound].
    by rewrite app_nil_r.
Qed.

Lemma stray_header_skipped_witness :
  exists socket',
    try_read_incoming_messages tick_msecs
      (connected [QTcpSocket.Arrive
                    (le_bytes sizeof_MessageType 99
                     ++ encode_message (PlotBufferRequestMessage "buf1"))] ∅)
    = Returns (tt,
               set_received_messages
                 (store PlotBufferRequest (PlotBufferRequestMessage "buf1") ∅)
                 (set_client (Some socket') (connected [] ∅)),
               [incorrect_header])
    /\ QTcpSocket.readBuffer socket' = []
    /\ QTcpSocket.written socket' = [].
Proof.
  apply (stray_header_skipped tick_msecs
           (connected [QTcpSocket.Arrive
                         (le_bytes sizeof_MessageType 99
                          ++ encode_message (PlotBufferRequestMessage "buf1"))] ∅)
           (QTcpSocket.mk [] [QTcpSocket.Arrive
                                (le_bytes sizeof_MessageType 99
                                 ++ encode_message (PlotBufferRequestMessage "buf1"))] [])
           (QTcpSocket.mk (le_bytes sizeof_MessageType 99
                           ++ encode_message (PlotBufferRequestMessage "buf1")) [] [])
           true 99 (PlotBufferRequestMessage "buf1")); reflexivity.
Defined.

(** C4 as the spec has it fails: a frame of an unknown kind, tag 99 with
    the string "a" as its payload, is followed by the plot request "buf1".
    The header is logged, its payload is read as the next frame, and the
    plot request is never stored: a response with no symbol is. *)
Lemma stray_payload_counterexample :
  exists this',
    try_read_incoming_messages tick_msecs
      (connected [QTcpSocket.Arrive
                    (le_bytes sizeof_MessageType 99
                     ++ MessageComposer.encode_string "a"
                     ++ encode_message (PlotBufferRequestMessage "buf1"))] ∅)
    = Returns (tt, this', [incorrect_header])
    /\ received_messages_ this' !! PlotBufferRequest = None
    /\ received_messages_ this' !! GetObservedSymbolsResponse
       = Some (GetObservedSymbolsResponseMessage [])
    /\ client_ this' = Some (QTcpSocket.mk [] [] []).
Proof.
  eexists. split; [vm_compute; reflexivity|]. repeat split.
Qed.

(** * Further properties *)

(** ** What a pass does and does not do *)

Section Written.

Import QTcpSocket MessageDecoder.

Lemma read_exact_written n s r s1 :
  read_exact n s = (r, s1) -> written s1 = written s.
Proof.
  unfold read_exact.
  destruct (read_exact_from n (readBuffer s) (network s)) as [r0 [buf net]].
  by intros [= <- <-].
Qed.

Lemma receive_string_written s value ok value' s1 :
  receive_string s value = (ok, value', s1) -> written s1 = written s.
Proof.
  unfold receive_string.
  destruct (read_exact (N.of_nat sizeof_size_t) s) as [[prefix|] sa] eqn:Ha.
  - destruct (read_exact (le_value prefix) sa) as [[raw|] sb] eqn:Hb;
      intros [= <- <- <-];
      apply read_exact_written in Ha; apply read_exact_written in Hb; congruence.
  - intros [= <- <- <-]. by apply read_exact_written in Ha.
Qed.

Lemma receive_strings_written fuel : forall count s container ok container' s1,
  receive_strings fuel count s container = (ok, container', s1) ->
  written s1 = written s.
Proof.
  induction fuel as [|fuel IH]; intros count s container ok container' s1;
    cbn [receive_strings]; destruct (count =? 0); try (by intros [= <- <- <-]).
  destruct (receive_string s EmptyString) as [[[] symbol] sa] eqn:Ha.
  - intros H. apply IH in H. apply receive_string_written in Ha. congruence.
  - intros [= <- <- <-]. by apply receive_string_written in Ha.
Qed.

Lemma receive_symbol_list_written s container ok container' s1 :
  receive_symbol_list s container = (ok, container', s1) -> written s1 = written s.
Proof.
  unfold receive_symbol_list.
  destruct (read_exact (N.of_nat sizeof_size_t) s) as [[prefix|] sa] eqn:Ha.
  - intros H. apply receive_strings_written in H.
    apply read_exact_written in Ha. congruence.
  - intros [= <- <- <-]. by apply read_exact_written in Ha.
Qed.

End Written.

Lemma stores_trans inbox1 inbox2 inbox3 :
  stores inbox1 inbox2 -> stores inbox2 inbox3 -> stores inbox1 inbox3.
Proof.
  intros H12 H23. induction H23 as [|inbox3 m H23 IH]; [done|].
  by apply stores_more.
Qed.

Lemma stores_typed inbox inbox' :
  stores inbox inbox' -> inbox_typed inbox -> inbox_typed inbox'.
Proof.
  intros H Htyped. induction H as [|inbox' m H IH]; [done|].
  intros k m'. unfold store. rewrite lookup_insert.
  case_decide as Hk; [by intros [= <-] | apply IH].
Qed.

Lemma stores_other_kinds inbox inbox' k :
  stores inbox inbox' ->
  k <> PlotBufferRequest -> k <> GetObservedSymbolsResponse ->
  inbox' !! k = inbox !! k.
Proof.
  intros H Hp Hg. induction H as [|inbox' m H IH]; [done|].
  unfold store. rewrite lookup_insert_ne; [done|].
  by destruct m; cbn [kind_of].
Qed.

(** One round changes the bridge in its client and its map only: it reads
    from the socket, stores at most one message under its own kind, and
    logs at most the line for a header without a case. *)
Lemma read_and_dispatch_frame p srv socket inbox :
  match read_and_dispatch (GiwBridge.mk p srv (Some socket) inbox) with
  | Returns (_, this', events) =>
      exists socket' inbox',
        this' = GiwBridge.mk p srv (Some socket') inbox'
        /\ QTcpSocket.written socket' = QTcpSocket.written socket
        /\ stores inbox inbox'
        /\ Forall (fun e => e = incorrect_header) events
  | Fault => True
  | OutOfFuel => False
  end.
Proof.
  unfold read_and_dispatch, read_header. run.
  unfold QTcpSocket.read. cbn [fst snd].
  set (n := N.to_nat (N.min (N.of_nat sizeof_MessageType) (QTcpSocket.bytesAvailable socket))).
  destruct (Nat.ltb (length (take n (QTcpSocket.readBuffer socket))) sizeof_MessageType);
    [done|].
  destruct (MessageType_of_value _) as [[]|]; run;
    try (eexists _, _; repeat split; [apply stores_none | by repeat constructor]).
  - unfold decode_get_observed_symbols_response. run.
    destruct (MessageDecoder.receive_symbol_list _ _) as [[ok container] s1] eqn:Hdec.
    apply receive_symbol_list_written in Hdec. run.
    eexists _, _. repeat split; [done | | constructor].
    apply (stores_more _ _ (GetObservedSymbolsResponseMessage container)), stores_none.
  - unfold decode_plot_buffer_request. run.
    destruct (MessageDecoder.receive_string _ _) as [[ok value] s1] eqn:Hdec.
    apply receive_string_written in Hdec. run.
    eexists _, _. repeat split; [done | | constructor].
    apply (stores_more _ _ (PlotBufferRequestMessage value)), stores_none.
Qed.

Lemma try_read_loop_frame msecs fuel : forall p srv socket inbox,
  match try_read_loop fuel msecs (GiwBridge.mk p srv (Some socket) inbox) with
  | Returns (_, this', events) =>
      exists socket' inbox',
        this' = GiwBridge.mk p srv (Some socket') inbox'
        /\ QTcpSocket.readBuffer socket' = []
        /\ QTcpSocket.written socket' = QTcpSocket.written socket
        /\ stores inbox inbox'
        /\ Forall (fun e => e = incorrect_header) events
  | Fault => True
  | OutOfFuel => True
  end.
Proof.
  induction fuel as [|fuel IH]; intros p srv socket inbox; [done|].
  rewrite try_read_loop_S. run.
  destruct (QTcpSocket.waitForReadyRead msecs socket) as [arrived s1] eqn:Hwait.
  assert (Hout : QTcpSocket.written s1 = QTcpSocket.written socket).
  { unfold QTcpSocket.waitForReadyRead in Hwait.
    destruct (QTcpSocket.network socket) as [|[bs|] net']; by injection Hwait as _ <-. }
  run.
  destruct (QTcpSocket.bytesAvailable s1 =? 0) eqn:Hnone.
  - apply N.eqb_eq in Hnone. unfold QTcpSocket.bytesAvailable, length_N in Hnone.
    eexists _, _. repeat split; [| done | apply stores_none | constructor].
    destruct (QTcpSocket.readBuffer s1); [done | cbn [length] in Hnone; lia].
  - pose proof (read_and_dispatch_frame p srv s1 inbox) as Hround.
    destruct (read_and_dispatch _) as [[[u this2] events2]| |]; [|done|done].
    destruct Hround as (s2 & inbox2 & -> & Hout2 & Hstores2 & Hevents2). run.
    destruct (0 <? QTcpSocket.bytesAvailable s2) eqn:Hmore.
    + specialize (IH p srv s2 inbox2).
      destruct (try_read_loop fuel msecs _) as [[[u3 this3] events3]| |]; [|done|done].
      destruct IH as (s3 & inbox3 & -> & Hbuf3 & Hout3 & Hstores3 & Hevents3).
      eexists _, _. repeat split; [done | congruence | | ].
      * by apply (stores_trans _ inbox2).
      * by apply Forall_app.
    + apply N.ltb_ge in Hmore. unfold QTcpSocket.bytesAvailable, length_N in Hmore.
      eexists _, _. repeat split; [| congruence | done | by rewrite app_nil_r].
      destruct (QTcpSocket.readBuffer s2); [done | cbn [length] in Hmore; lia].
Qed.

Lemma try_read_incoming_messages_frame msecs p srv socket inbox :
  match try_read_incoming_messages msecs (GiwBridge.mk p srv (Some socket) inbox) with
  | Returns (_, this', events) =>
      exists socket' inbox',
        this' = GiwBridge.mk p srv (Some socket') inbox'
        /\ QTcpSocket.readBuffer socket' = []
        /\ QTcpSocket.written socket' = QTcpSocket.written socket
        /\ stores inbox inbox'
        /\ Forall (fun e => e = incorrect_header) events
  | Fault => True
  | OutOfFuel => True
  end.
Proof.
  unfold try_read_incoming_messages, try_read_fuel. run.
  pose proof (try_read_loop_frame msecs (S (QTcpSocket.pending socket)) p srv socket inbox) as H.
  by destruct (try_read_loop _ _ _) as [[[u this1] events1]| |].
Qed.

(** X1. A pass that returns has emptied the read buffer of the client:
    both ways out of its loop are taken with no byte buffered. *)
Theorem pass_leaves_nothing_buffered (msecs : Z) (this this' : GiwBridge.t)
    (result : unit) (events : list Event) :
  try_read_incoming_messages msecs this = Returns (result, this', events) ->
  exists socket',
    client_ this' = Some socket' /\ QTcpSocket.readBuffer socket' = [].
Proof.
  intros Hrun. destruct this as [p srv [socket|] inbox]; [|done].
  pose proof (try_read_incoming_messages_frame msecs p srv socket inbox) as H.
  rewrite Hrun in H. destruct H as (socket' & inbox' & -> & Hbuf & _).
  by exists socket'.
Qed.

Lemma pass_leaves_nothing_buffered_witness :
  exists socket',
    client_ (set_received_messages
               (store PlotBufferRequest (PlotBufferRequestMessage "buf1") ∅)
               (connected [] ∅)) = Some socket'
    /\ QTcpSocket.readBuffer socket' = [].
Proof.
  apply (pass_leaves_nothing_buffered tick_msecs
           (connected [QTcpSocket.Arrive
                         (encode_message (PlotBufferRequestMessage "buf1"))] ∅)
           _ tt []).
  vm_compute. reflexivity.
Defined.

(** X2. A pass only reads: when it returns, the process and the server
    are what they were, nothing was written to the socket, the plot
    callback was not called, and every line on [cerr] is the one for a
    header without a case. *)
Theorem pass_only_reads (msecs : Z) (this this' : GiwBridge.t)
    (result : unit) (events : list Event) :
  try_read_incoming_messages msecs this = Returns (result, this', events) ->
  process_ this' = process_ this
  /\ server_ this' = server_ this
  /\ (exists socket socket',
        client_ this = Some socket /\ client_ this' = Some socket'
        /\ QTcpSocket.written socket' = QTcpSocket.written socket)
  /\ plot_calls events = []
  /\ Forall (fun e => e = incorrect_header) events.
Proof.
  intros Hrun. destruct this as [p srv [socket|] inbox]; [|done].
  pose proof (try_read_incoming_messages_frame msecs p srv socket inbox) as H.
  pose proof (try_read_incoming_messages_sound msecs
                (GiwBridge.mk p srv (Some socket) inbox)) as Hsound.
  rewrite Hrun in H, Hsound.
  destruct H as (socket' & inbox' & -> & _ & Hout & _ & Hevents).
  destruct Hsound as (_ & Hcalls & _).
  repeat split; try done. by exists socket, socket'.
Qed.

Lemma pass_only_reads_witness :
  plot_calls [incorrect_header] = []
  /\ Forall (fun e => e = incorrect_header) [incorrect_header].
Proof.
  destruct (pass_only_reads tick_msecs
              (connected [QTcpSocket.Arrive (le_bytes sizeof_MessageType 99)] ∅)
              (connected [] ∅) tt [incorrect_header])
    as (_ & _ & _ & Hcalls & Hevents); [vm_compute; reflexivity|].
  split; [exact Hcalls | exact Hevents].
Defined.

Lemma try_read_incoming_messages_typed msecs this result this' events :
  try_read_incoming_messages msecs this = Returns (result, this', events) ->
  inbox_typed (received_messages_ this) -> inbox_typed (received_messages_ this').
Proof.
  intros Hrun. destruct this as [p srv [socket|] inbox]; [|done].
  pose proof (try_read_incoming_messages_frame msecs p srv socket inbox) as H.
  rewrite Hrun in H. destruct H as (socket' & inbox' & -> & _ & _ & Hstores & _).
  cbn [received_messages_]. by apply stores_typed.
Qed.

(** X3. A pass changes the map only by storing messages under their own
    kind: a well-typed map stays well typed, and the entries of the kinds
    other than [PlotBufferRequest] and [GetObservedSymbolsResponse] are
    never touched, so that nothing is ever stored under them. *)
Theorem pass_keeps_typing (msecs : Z) (this this' : GiwBridge.t)
    (result : unit) (events : list Event) :
  try_read_incoming_messages msecs this = Returns (result, this', events) ->
  (inbox_typed (received_messages_ this) -> inbox_typed (received_messages_ this'))
  /\ (forall k, k <> PlotBufferRequest -> k <> GetObservedSymbolsResponse ->
                received_messages_ this' !! k = received_messages_ this !! k).
Proof.
  intros Hrun. destruct this as [p srv [socket|] inbox]; [|done].
  pose proof (try_read_incoming_messages_frame msecs p srv socket inbox) as H.
  rewrite Hrun in H. destruct H as (socket' & inbox' & -> & _ & _ & Hstores & _).
  cbn [received_messages_]. split.
  - by apply stores_typed.
  - intros k. by apply stores_other_kinds.
Qed.

Lemma pass_keeps_typing_witness :
  (inbox_typed ∅ ->
   inbox_typed (store PlotBufferRequest (PlotBufferRequestMessage "buf1") ∅))
  /\ (store PlotBufferRequest (PlotBufferRequestMessage "buf1") ∅ : gmap _ _)
     !! SetAvailableSymbols = None.
Proof.
  destruct (pass_keeps_typing tick_msecs
              (connected [QTcpSocket.Arrive
                            (encode_message (PlotBufferRequestMessage "buf1"))] ∅)
              (set_received_messages
                 (store PlotBufferRequest (PlotBufferRequestMessage "buf1") ∅)
                 (connected [] ∅)) tt [])
    as (Htyped & Hother); [vm_compute; reflexivity|].
  split; [exact Htyped | apply (Hother SetAvailableSymbols); discriminate].
Defined.

(** ** The casts are safe *)

Lemma inbox_typed_empty : inbox_typed ∅.
Proof. intros k m. by rewrite lookup_empty. Qed.

Lemma inbox_typed_delete k inbox : inbox_typed inbox -> inbox_typed (delete k inbox).
Proof.
  intros Htyped k' m. rewrite lookup_delete.
  case_decide; [done | apply Htyped].
Qed.

Lemma take_stored_typed k inbox result inbox' :
  take_stored k inbox = (result, inbox') ->
  inbox_typed inbox ->
  inbox_typed inbox' /\ (forall m, result = Some m -> kind_of m = k).
Proof.
  unfold take_stored. intros H Htyped.
  destruct (inbox !! k) as [m|] eqn:Hk; injection H as <- <-.
  - split; [by apply inbox_typed_delete|]. intros m' [= <-]. by apply Htyped.
  - by split.
Qed.

Lemma start_keeps_inbox this result this' events :
  start this = Returns (result, this', events) ->
  received_messages_ this' = received_messages_ this.
Proof.
  destruct this as [p [free listening inb pend] c inbox].
  unfold start, wait_for_client, QTcpServer.listen,
    QTcpServer.waitForNewConnection, QTcpServer.nextPendingConnection.
  destruct listening, free, c as [socket|], inb as [peer|], pend as [|q pend];
    run; by intros [= <- <- <-].
Qed.

Lemma set_available_symbols_keeps_inbox available_vars this result this' events :
  set_available_symbols available_vars this = Returns (result, this', events) ->
  received_messages_ this' = received_messages_ this.
Proof.
  destruct this as [p srv [socket|] inbox]; [|done].
  unfold set_available_symbols. run. by intros [= <- <- <-].
Qed.

Lemma run_event_loop_typed this result this' events :
  run_event_loop this = Returns (result, this', events) ->
  inbox_typed (received_messages_ this) ->
  inbox_typed (received_messages_ this').
Proof.
  unfold run_event_loop, bind. intros Hrun Htyped.
  destruct (try_read_incoming_messages tick_msecs this) as [[[u this1] events1]| |] eqn:Hpass;
    [|done|done].
  apply try_read_incoming_messages_typed in Hpass; [|done].
  destruct (received_messages_ this1 !! PlotBufferRequest) as [[l|name]|] eqn:Hplot.
  - by apply Hpass in Hplot.
  - destruct (lookup_Some_size _ _ _ Hplot) as [n Hsize]. rewrite Hsize in Hrun.
    rewrite (plot_stored_requests_present n this1 name Hplot) in Hrun.
    injection Hrun as _ <- _.
    cbn [set_received_messages received_messages_]. by apply inbox_typed_delete.
  - rewrite plot_stored_requests_absent in Hrun by done. by injection Hrun as _ <- _.
Qed.

Lemma get_observed_symbols_typed this result this' events :
  get_observed_symbols this = Returns (result, this', events) ->
  inbox_typed (received_messages_ this) ->
  inbox_typed (received_messages_ this').
Proof.
  destruct this as [p srv [socket|] inbox]; [|done].
  cbn [received_messages_]. intros Hrun Htyped. revert Hrun.
  unfold get_observed_symbols, fetch_message. run.
  unfold take_stored at 1. cbn [received_messages_].
  destruct (inbox !! GetObservedSymbolsResponse) as [[l|name]|] eqn:Hstored; run.
  - intros [= <- <- <-]. cbn [received_messages_]. by apply inbox_typed_delete.
  - done.
  - fold (request_sent socket).
    destruct (try_read_incoming_messages default_msecs _) as [[[u this1] events1]| |] eqn:Hpass;
      [|done|done].
    apply try_read_incoming_messages_typed in Hpass; [|done]. run.
    destruct (take_stored GetObservedSymbolsResponse (received_messages_ this1))
      as [taken inbox1] eqn:Htake.
    apply take_stored_typed in Htake as [Htyped1 _]; [|done].
    destruct taken as [[l|name]|]; run; [|done|]; by intros [= <- <- <-].
Qed.

(** X4. In every state a bridge can reach from its constructor through
    [start], [get_observed_symbols], [set_available_symbols] and
    [run_event_loop], every stored message lies under its own kind. *)
Theorem reachable_typed (this : GiwBridge.t) :
  reachable this -> inbox_typed (received_messages_ this).
Proof.
  induction 1 as [process srv
                 | this result this' events _ IH Hrun
                 | this result this' events _ IH Hrun
                 | this available_vars result this' events _ IH Hrun
                 | this result this' events _ IH Hrun].
  - apply inbox_typed_empty.
  - by rewrite (start_keeps_inbox _ _ _ _ Hrun).
  - by apply (get_observed_symbols_typed _ _ _ _ Hrun).
  - by rewrite (set_available_symbols_keeps_inbox _ _ _ _ _ Hrun).
  - by apply (run_event_loop_typed _ _ _ _ Hrun).
Qed.

Lemma reachable_typed_witness :
  exists this',
    received_messages_ this' !! GetObservedSymbolsResponse
    = Some (GetObservedSymbolsResponseMessage ["x"%string])
    /\ inbox_typed (received_messages_ this').
Proof.
  eexists. split; [|apply reachable_typed].
  2:{ eapply reachable_run_event_loop.
      - eapply reachable_start.
        + apply (reachable_new (QProcess.mk 0 4242)
                   (QTcpServer.mk true false
                      (Some (QTcpSocket.mk []
                               [QTcpSocket.Arrive
                                  (encode_message (PlotBufferRequestMessage "buf1")
                                   ++ encode_message
                                        (GetObservedSymbolsResponseMessage ["x"%string]))]
                               [])) [])).
        + vm_compute. reflexivity.
      - vm_compute. reflexivity. }
  reflexivity.
Defined.

(** X5. From a well-typed map the casts never go wrong: [run_event_loop]
    stops on a fault exactly when its pass does, and
    [get_observed_symbols], with a client, exactly when no response is
    stored and its pass does. *)
Theorem casts_are_safe (this : GiwBridge.t) :
  inbox_typed (received_messages_ this) ->
  (run_event_loop this = Fault <-> try_read_incoming_messages tick_msecs this = Fault)
  /\ (forall socket,
        client_ this = Some socket ->
        (get_observed_symbols this = Fault <->
         received_messages_ this !! GetObservedSymbolsResponse = None
         /\ try_read_incoming_messages default_msecs
              (set_client (Some (request_sent socket)) this) = Fault)).
Proof.
  intros Htyped. split.
  - unfold run_event_loop, bind.
    destruct (try_read_incoming_messages tick_msecs this) as [[[u this1] events1]| |] eqn:Hpass;
      [|done|done].
    apply try_read_incoming_messages_typed in Hpass; [|done].
    destruct (received_messages_ this1 !! PlotBufferRequest) as [[l|name]|] eqn:Hplot.
    + by apply Hpass in Hplot.
    + destruct (lookup_Some_size _ _ _ Hplot) as [n ->].
      by rewrite (plot_stored_requests_present n this1 name Hplot).
    + by rewrite plot_stored_requests_absent.
  - intros socket Hclient.
    destruct this as [p srv c inbox]. cbn [client_ received_messages_] in *. subst c.
    unfold get_observed_symbols, fetch_message. run.
    unfold take_stored at 1. cbn [received_messages_].
    destruct (inbox !! GetObservedSymbolsResponse) as [[l|name]|] eqn:Hstored; run.
    + split; [done | by intros [? _]].
    + by apply Htyped in Hstored.
    + fold (request_sent socket).
      destruct (try_read_incoming_messages default_msecs _) as [[[u this1] events1]| |] eqn:Hpass.
      * apply try_read_incoming_messages_typed in Hpass; [|done]. run.
        destruct (take_stored GetObservedSymbolsResponse (received_messages_ this1))
          as [taken inbox1] eqn:Htake.
        apply take_stored_typed in Htake as [_ Hkind]; [|done].
        destruct taken as [[l|name]|]; run; try (split; [done | by intros [_ ?]]).
        by specialize (Hkind _ eq_refl).
      * done.
      * split; [done | by intros [_ ?]].
Qed.

Lemma casts_are_safe_witness :
  let this :=
    connected [QTcpSocket.Timeout]
      (<[PlotBufferRequest := PlotBufferRequestMessage "buf1"]>
         (<[GetObservedSymbolsResponse := GetObservedSymbolsResponseMessage ["x"%string]]> ∅)) in
  (run_event_loop this <> Fault /\ get_observed_symbols this <> Fault)
  /\ (exists this', run_event_loop this = Returns (tt, this', [PlotCallback "buf1"]))
  /\ (exists this', get_observed_symbols this = Returns (["x"%string], this', [])).
Proof.
  intros this.
  assert (Htyped : inbox_typed (received_messages_ this)).
  { intros k m H. destruct k; vm_compute in H;
      (discriminate || (injection H as <-; reflexivity)). }
  destruct (casts_are_safe this Htyped) as [Htick Hget].
  split; [split|split].
  - intros H. apply Htick in H. vm_compute in H. discriminate.
  - intros H. apply (Hget (QTcpSocket.mk [] [QTcpSocket.Timeout] []) eq_refl) in H.
    destruct H as [H _]. vm_compute in H. discriminate.
  - eexists. vm_compute. reflexivity.
  - eexists. vm_compute. reflexivity.
Defined.

(** ** Streams of whole frames *)

Lemma stores_foldl items : forall inbox0 inbox,
  stores inbox0 inbox -> stores inbox0 (foldl store_inbound inbox items).
Proof.
  induction items as [|i items IH]; intros inbox0 inbox H; [done|].
  cbn [foldl]. apply IH. destruct i as [m|v]; [by apply stores_more | done].
Qed.

Lemma run_event_loop_inbounds p srv socket arrived socket1 inbox items :
  inbox_typed inbox ->
  QTcpSocket.waitForReadyRead tick_msecs socket = (arrived, socket1) ->
  QTcpSocket.readBuffer socket1 = encode_inbounds items ->
  forallb inbound_ok items = true ->
  quiet (QTcpSocket.network socket1) = true ->
  run_event_loop (GiwBridge.mk p srv (Some socket) inbox)
  = Returns (tt,
             GiwBridge.mk p srv
               (Some (QTcpSocket.mk []
                        (drop (length items - 1) (QTcpSocket.network socket1))
                        (QTcpSocket.written socket1)))
               (delete PlotBufferRequest (foldl store_inbound inbox items)),
             concat (map inbound_events items)
             ++ stored_plot_call (foldl store_inbound inbox items)).
Proof.
  intros Htyped Hwait Hbuf Hok Hquiet.
  unfold run_event_loop, bind.
  rewrite (try_read_incoming_messages_inbounds tick_msecs p srv socket arrived socket1
             inbox items) by done.
  cbn [received_messages_].
  pose proof (stores_typed _ _ (stores_foldl items inbox inbox (stores_none inbox)) Htyped)
    as Htyped1.
  unfold stored_plot_call.
  destruct (foldl store_inbound inbox items !! PlotBufferRequest) as [[l|name]|] eqn:Hplot.
  - by apply Htyped1 in Hplot.
  - destruct (lookup_Some_size _ _ _ Hplot) as [n ->].
    by rewrite (plot_stored_requests_present n _ name).
  - rewrite plot_stored_requests_absent by done. by rewrite delete_id.
Qed.

Lemma get_observed_symbols_inbounds p srv socket arrived socket1 inbox items :
  inbox_typed inbox ->
  inbox !! GetObservedSymbolsResponse = None ->
  QTcpSocket.waitForReadyRead default_msecs (request_sent socket) = (arrived, socket1) ->
  QTcpSocket.readBuffer socket1 = encode_inbounds items ->
  forallb inbound_ok items = true ->
  quiet (QTcpSocket.network socket1) = true ->
  get_observed_symbols (GiwBridge.mk p srv (Some socket) inbox)
  = Returns (stored_symbols (foldl store_inbound inbox items),
             GiwBridge.mk p srv
               (Some (QTcpSocket.mk []
                        (drop (length items - 1) (QTcpSocket.network socket1))
                        (QTcpSocket.written socket1)))
               (delete GetObservedSymbolsResponse (foldl store_inbound inbox items)),
             concat (map inbound_events items)).
Proof.
  intros Htyped Habsent Hwait Hbuf Hok Hquiet.
  unfold get_observed_symbols, fetch_message. run.
  rewrite take_stored_absent by done. run. fold (request_sent socket).
  rewrite (try_read_incoming_messages_inbounds default_msecs p srv (request_sent socket)
             arrived socket1 inbox items) by done.
  run.
  pose proof (stores_typed _ _ (stores_foldl items inbox inbox (stores_none inbox)) Htyped)
    as Htyped1.
  unfold stored_symbols, take_stored.
  destruct (foldl store_inbound inbox items !! GetObservedSymbolsResponse)
    as [[l|name]|] eqn:Hstored; run.
  - by rewrite !app_nil_r.
  - by apply Htyped1 in Hstored.
  - by rewrite !app_nil_r, delete_id.
Qed.

(** X6. A tick over a stream of whole frames and of headers without a
    case, buffered when its wait ends: every frame is stored in order,
    every such header is logged, then the callback is called once for the
    plot request the map holds, if it holds one.  The response that was
    read stays in the map, for the next [get_observed_symbols]. *)
Theorem tick_over_stream (this : GiwBridge.t) (socket socket1 : QTcpSocket.t)
    (arrived : bool) (items : list Inbound) :
  client_ this = Some socket ->
  inbox_typed (received_messages_ this) ->
  QTcpSocket.waitForReadyRead tick_msecs socket = (arrived, socket1) ->
  QTcpSocket.readBuffer socket1 = encode_inbounds items ->
  forallb inbound_ok items = true ->
  quiet (QTcpSocket.network socket1) = true ->
  run_event_loop this
  = Returns (tt,
             set_received_messages
               (delete PlotBufferRequest (foldl store_inbound (received_messages_ this) items))
               (set_client
                  (Some (QTcpSocket.mk []
                           (drop (length items - 1) (QTcpSocket.network socket1))
                           (QTcpSocket.written socket1))) this),
             concat (map inbound_events items)
             ++ stored_plot_call (foldl store_inbound (received_messages_ this) items)).
Proof.
  intros Hclient Htyped Hwait Hbuf Hok Hquiet.
  destruct this as [p srv c inbox]. cbn [client_ received_messages_] in *. subst c.
  by apply (run_event_loop_inbounds p srv socket arrived socket1).
Qed.

Lemma tick_over_stream_witness :
  exists this',
    run_event_loop
      (connected [QTcpSocket.Arrive
                    (encode_inbounds
                       [Frame (GetObservedSymbolsResponseMessage ["x"%string]);
                        Tag 2;
                        Frame (PlotBufferRequestMessage "buf1")])] ∅)
    = Returns (tt, this', [incorrect_header; PlotCallback "buf1"])
    /\ received_messages_ this' !! GetObservedSymbolsResponse
       = Some (GetObservedSymbolsResponseMessage ["x"%string]).
Proof.
  assert (Htyped : inbox_typed (received_messages_ (connected [] ∅))).
  { intros k m H. cbn [connected received_messages_] in H.
    rewrite lookup_empty in H. discriminate. }
  eexists. split.
  - etransitivity; [apply (tick_over_stream
             (connected [QTcpSocket.Arrive
                           (encode_inbounds
                              [Frame (GetObservedSymbolsResponseMessage ["x"%string]);
                               Tag 2;
                               Frame (PlotBufferRequestMessage "buf1")])] ∅)
             (QTcpSocket.mk []
                [QTcpSocket.Arrive
                   (encode_inbounds
                      [Frame (GetObservedSymbolsResponseMessage ["x"%string]);
                       Tag 2;
                       Frame (PlotBufferRequestMessage "buf1")])] [])
             (QTcpSocket.mk
                (encode_inbounds
                   [Frame (GetObservedSymbolsResponseMessage ["x"%string]);
                    Tag 2;
                    Frame (PlotBufferRequestMessage "buf1")]) [] [])
             true
             [Frame (GetObservedSymbolsResponseMessage ["x"%string]);
              Tag 2;
              Frame (PlotBufferRequestMessage "buf1")]);
      (reflexivity || exact Htyped)
    | vm_compute; reflexivity].
  - reflexivity.
Defined.

(** X7. [get_observed_symbols] with no response stored, over a stream of
    whole frames and of headers without a case, buffered when the wait
    of its pass ends: it returns the symbols of the last response of the
    stream, or the empty sequence when the stream has none, and logs the
    headers without a case.  A plot request read on the way stays in the
    map, for the next tick. *)
Theorem observed_symbols_over_stream (this : GiwBridge.t)
    (socket socket1 : QTcpSocket.t) (arrived : bool) (items : list Inbound) :
  client_ this = Some socket ->
  inbox_typed (received_messages_ this) ->
  received_messages_ this !! GetObservedSymbolsResponse = None ->
  QTcpSocket.waitForReadyRead default_msecs (request_sent socket) = (arrived, socket1) ->
  QTcpSocket.readBuffer socket1 = encode_inbounds items ->
  forallb inbound_ok items = true ->
  quiet (QTcpSocket.network socket1) = true ->
  get_observed_symbols this
  = Returns (stored_symbols (foldl store_inbound (received_messages_ this) items),
             set_received_messages
               (delete GetObservedSymbolsResponse
                  (foldl store_inbound (received_messages_ this) items))
               (set_client
                  (Some (QTcpSocket.mk []
                           (drop (length items - 1) (QTcpSocket.network socket1))
                           (QTcpSocket.written socket1))) this),
             concat (map inbound_events items)).
Proof.
  intros Hclient Htyped Habsent Hwait Hbuf Hok Hquiet.
  destruct this as [p srv c inbox]. cbn [client_ received_messages_] in *. subst c.
  by apply (get_observed_symbols_inbounds p srv socket arrived socket1).
Qed.

Lemma observed_symbols_over_stream_witness :
  exists this',
    get_observed_symbols
      (connected [QTcpSocket.Arrive
                    (encode_inbounds
                       [Frame (GetObservedSymbolsResponseMessage ["old"%string]);
                        Frame (PlotBufferRequestMessage "buf1");
                        Frame (GetObservedSymbolsResponseMessage ["x"; "y"]%string)])] ∅)
    = Returns (["x"; "y"]%string, this', [])
    /\ received_messages_ this' !! PlotBufferRequest
       = Some (PlotBufferRequestMessage "buf1").
Proof.
  assert (Htyped : inbox_typed (received_messages_ (connected [] ∅))).
  { intros k m H. cbn [connected received_messages_] in H.
    rewrite lookup_empty in H. discriminate. }
  eexists. split.
  - etransitivity; [apply (observed_symbols_over_stream
             (connected [QTcpSocket.Arrive
                           (encode_inbounds
                              [Frame (GetObservedSymbolsResponseMessage ["old"%string]);
                               Frame (PlotBufferRequestMessage "buf1");
                               Frame (GetObservedSymbolsResponseMessage ["x"; "y"]%string)])] ∅)
             (QTcpSocket.mk []
                [QTcpSocket.Arrive
                   (encode_inbounds
                      [Frame (GetObservedSymbolsResponseMessage ["old"%string]);
                       Frame (PlotBufferRequestMessage "buf1");
                       Frame (GetObservedSymbolsResponseMessage ["x"; "y"]%string)])] [])
             (QTcpSocket.mk
                (encode_inbounds
                   [Frame (GetObservedSymbolsResponseMessage ["old"%string]);
                    Frame (PlotBufferRequestMessage "buf1");
                    Frame (GetObservedSymbolsResponseMessage ["x"; "y"]%string)]) []
                (le_bytes sizeof_MessageType (MessageType_value GetObservedSymbols)))
             true
             [Frame (GetObservedSymbolsResponseMessage ["old"%string]);
              Frame (PlotBufferRequestMessage "buf1");
              Frame (GetObservedSymbolsResponseMessage ["x"; "y"]%string)]);
      (reflexivity || exact Htyped)
    | vm_compute; reflexivity].
  - reflexivity.
Defined.

(** ** How the operations compose *)

(** X8. A plot request that [get_observed_symbols] reads while it looks
    for its response is not lost: the call returns the symbols, and the
    next tick, with nothing more arriving, calls back for that request. *)
Theorem request_then_tick (this : GiwBridge.t) (socket socket1 : QTcpSocket.t)
    (arrived : bool) (name : string) (observed_symbols : list string) :
  client_ this = Some socket ->
  inbox_typed (received_messages_ this) ->
  received_messages_ this !! GetObservedSymbolsResponse = None ->
  QTcpSocket.waitForReadyRead default_msecs (request_sent socket) = (arrived, socket1) ->
  QTcpSocket.readBuffer socket1
  = encode_message (PlotBufferRequestMessage name)
    ++ encode_message (GetObservedSymbolsResponseMessage observed_symbols) ->
  string_fits name = true ->
  message_fits (GetObservedSymbolsResponseMessage observed_symbols) = true ->
  quiet (QTcpSocket.network socket1) = true ->
  exists this',
    (symbols <- get_observed_symbols; run_event_loop ;; ret symbols) this
    = Returns (observed_symbols, this', [PlotCallback (c_str name)])
    /\ received_messages_ this' !! PlotBufferRequest = None
    /\ received_messages_ this' !! GetObservedSymbolsResponse = None.
Proof.
  intros Hclient Htyped Habsent Hwait Hbuf Hname Hsymbols Hquiet.
  destruct this as [p srv c inbox]. cbn [client_ received_messages_] in *. subst c.
  unfold bind at 1.
  rewrite (get_observed_symbols_inbounds p srv socket arrived socket1 inbox
             [Frame (PlotBufferRequestMessage name);
              Frame (GetObservedSymbolsResponseMessage observed_symbols)]); try done.
  2:{ rewrite Hbuf. unfold encode_inbounds. cbn [map concat encode_inbound].
      by rewrite app_nil_r. }
  2:{ cbn [forallb inbound_ok message_fits]. cbn [message_fits] in Hsymbols.
      by rewrite Hname, Hsymbols. }
  cbn [foldl store_inbound kind_of map concat inbound_events app length].
  set (inbox1 := delete GetObservedSymbolsResponse
                   (store GetObservedSymbolsResponse
                      (GetObservedSymbolsResponseMessage observed_symbols)
                      (store PlotBufferRequest (PlotBufferRequestMessage name) inbox))).
  assert (Hplot : inbox1 !! PlotBufferRequest = Some (PlotBufferRequestMessage name)).
  { unfold inbox1, store. rewrite lookup_delete_ne by done.
    rewrite lookup_insert_ne by done. apply lookup_insert_eq. }
  assert (Htyped1 : inbox_typed inbox1).
  { apply inbox_typed_delete.
    apply (stores_typed inbox); [|done].
    apply (stores_more _ _ (GetObservedSymbolsResponseMessage observed_symbols)).
    apply (stores_more _ _ (PlotBufferRequestMessage name)), stores_none. }
  unfold bind at 1.
  rewrite (run_event_loop_inbounds p srv _ false
             (QTcpSocket.mk [] (drop 1 (drop (2 - 1) (QTcpSocket.network socket1)))
                (QTcpSocket.written socket1)) inbox1 []); try done.
  2:{ apply waitForReadyRead_quiet. by apply quiet_drop. }
  2:{ cbn [QTcpSocket.network]. by do 2 apply quiet_drop. }
  cbn [foldl map concat app]. unfold stored_plot_call. rewrite Hplot.
  unfold stored_symbols, store. rewrite lookup_insert_eq.
  run. eexists. split; [reflexivity|]. cbn [received_messages_]. split.
  - apply lookup_delete_eq.
  - rewrite lookup_delete_ne by done. unfold inbox1. apply lookup_delete_eq.
Qed.

Lemma request_then_tick_witness :
  exists this',
    (symbols <- get_observed_symbols; run_event_loop ;; ret symbols)
      (connected [QTcpSocket.Arrive
                    (encode_message (PlotBufferRequestMessage "buf1")
                     ++ encode_message (GetObservedSymbolsResponseMessage ["x"%string]))] ∅)
    = Returns (["x"%string], this', [PlotCallback "buf1"])
    /\ received_messages_ this' !! PlotBufferRequest = None
    /\ received_messages_ this' !! GetObservedSymbolsResponse = None.
Proof.
  apply (request_then_tick
           (connected [QTcpSocket.Arrive
                         (encode_message (PlotBufferRequestMessage "buf1")
                          ++ encode_message
                               (GetObservedSymbolsResponseMessage ["x"%string]))] ∅)
           (QTcpSocket.mk []
              [QTcpSocket.Arrive
                 (encode_message (PlotBufferRequestMessage "buf1")
                  ++ encode_message (GetObservedSymbolsResponseMessage ["x"%string]))] [])
           (QTcpSocket.mk
              (encode_message (PlotBufferRequestMessage "buf1")
               ++ encode_message (GetObservedSymbolsResponseMessage ["x"%string])) []
              (le_bytes sizeof_MessageType (MessageType_value GetObservedSymbols)))
           true "buf1" ["x"%string]); try reflexivity.
  intros k m H. cbn [connected received_messages_] in H.
  rewrite lookup_empty in H. discriminate.
Defined.



(** ** Starting once *)

(** X10. [start] cannot be retried.  Once a call has returned on a port
    that can be bound, the server listens, so every later call fails at
    [listen]: it returns false and changes nothing, even when a client is
    connected.  A first call that finds no client has all the same
    launched the companion process. *)
Theorem start_is_one_shot (this this' : GiwBridge.t) (result : bool)
    (events : list Event) :
  start this = Returns (result, this', events) ->
  QTcpServer.port_free (server_ this) = true ->
  start this' = Returns (false, this', [Cerr "[giw] Could not start TCP server"])
  /\ (QTcpServer.isListening (server_ this) = false ->
      QProcess.processId (process_ this) = 0%Z ->
      QProcess.processId (process_ this') = QProcess.launch (process_ this)).
Proof.
  destruct this as [[pid launch] [free listening inb pend] c inbox].
  cbn [server_ process_ QTcpServer.port_free QTcpServer.isListening
       QProcess.processId QProcess.launch].
  intros Hrun ->. revert Hrun.
  unfold start, wait_for_client, QTcpServer.listen,
    QTcpServer.waitForNewConnection, QTcpServer.nextPendingConnection.
  destruct listening, c as [socket|], inb as [peer|], pend as [|q pend];
    run; intros [= <- <- <-]; (split; [reflexivity|]); try done;
    intros _ Hpid; cbn [QProcess.processId] in Hpid; subst pid; reflexivity.
Qed.

Lemma start_is_one_shot_witness :
  exists this',
    start (GiwBridge.new (QProcess.mk 0 4242) (QTcpServer.mk true false None []))
    = Returns (false, this', [Cerr "[giw] No clients connected to ImageWatch server"])
    /\ start this' = Returns (false, this', [Cerr "[giw] Could not start TCP server"])
    /\ QProcess.processId (process_ this') = 4242%Z.
Proof.
  eexists. split; [vm_compute; reflexivity|].
  destruct (start_is_one_shot
              (GiwBridge.new (QProcess.mk 0 4242) (QTcpServer.mk true false None []))
              (GiwBridge.mk (QProcess.mk 4242 4242) (QTcpServer.mk true true None [])
                 None ∅)
              false [Cerr "[giw] No clients connected to ImageWatch server"])
    as [Hagain Hlaunched]; [reflexivity | reflexivity |].
  split; [exact Hagain | apply Hlaunched; reflexivity].
Defined.

(** X11. No public operation gives up the client: once [client_] is a
    connection it is one after every [start], [get_observed_symbols],
    [set_available_symbols] and [run_event_loop] that returns, whatever
    the peer does, the end of the connection included. *)
Theorem client_is_never_dropped (this this' : GiwBridge.t) :
  client_ this <> None ->
  (forall result events,
     start this = Returns (result, this', events) -> client_ this' <> None)
  /\ (forall result events,
        get_observed_symbols this = Returns (result, this', events) ->
        client_ this' <> None)
  /\ (forall available_vars result events,
        set_available_symbols available_vars this = Returns (result, this', events) ->
        client_ this' <> None)
  /\ (forall result events,
        run_event_loop this = Returns (result, this', events) -> client_ this' <> None).
Proof.
  intros Hclient.
  destruct this as [p srv [socket|] inbox]; [clear Hclient|done].
  split; [|split; [|split]].
  - intros result events.
    destruct srv as [free listening inb pend].
    unfold start, wait_for_client, QTcpServer.listen.
    destruct listening, free; run; by intros [= <- <- <-].
  - intros result events.
    unfold get_observed_symbols, fetch_message. run.
    unfold take_stored at 1. cbn [received_messages_].
    destruct (inbox !! GetObservedSymbolsResponse) as [[l|name]|]; run;
      [by intros [= <- <- <-] | done |].
    pose proof (try_read_incoming_messages_sound default_msecs
                  (GiwBridge.mk p srv
                     (Some (MessageComposer.send
                              (MessageComposer.push_type GetObservedSymbols
                                 MessageComposer.empty) socket)) inbox)) as Hpass.
    destruct (try_read_incoming_messages default_msecs _) as [[[u this1] events1]| |];
      [|done|done].
    destruct Hpass as (Hclient1 & _). run.
    destruct (take_stored GetObservedSymbolsResponse (received_messages_ this1))
      as [[[l|name]|] inbox1]; run; [|done|]; by intros [= <- <- <-].
  - intros available_vars result events.
    unfold set_available_symbols. run. by intros [= <- <- <-].
  - intros result events. unfold run_event_loop, bind.
    pose proof (try_read_incoming_messages_sound tick_msecs
                  (GiwBridge.mk p srv (Some socket) inbox)) as Hpass.
    destruct (try_read_incoming_messages tick_msecs _) as [[[u this1] events1]| |];
      [|done|done].
    destruct Hpass as (Hclient1 & _).
    pose proof (plot_stored_requests_sound this1) as Hloop.
    destruct (plot_stored_requests _ this1) as [[[u2 this2] events2]| |]; [|done|done].
    destruct Hloop as (_ & _ & Hsame). intros [= <- <- <-]. by rewrite Hsame.
Qed.

Lemma client_is_never_dropped_witness :
  client_ (set_client (Some (request_sent (QTcpSocket.mk [] [] []))) (connected [] ∅))
  <> None.
Proof.
  destruct (client_is_never_dropped (connected [] ∅)
              (set_client (Some (request_sent (QTcpSocket.mk [] [] []))) (connected [] ∅)))
    as (_ & Hget & _); [discriminate|].
  apply (Hget [] []). reflexivity.
Defined.

(** ** Decoding *)

(** X12. A header with a case is enough for a message to be stored:
    whatever follows it on the socket, and whatever the decoder reports,
    the round returns with a message of that kind stored under it. *)
Theorem header_alone_stores (this : GiwBridge.t) (socket : QTcpSocket.t)
    (k : MessageType) (rest : list byte) :
  client_ this = Some socket ->
  QTcpSocket.readBuffer socket = le_bytes sizeof_MessageType (MessageType_value k) ++ rest ->
  k = PlotBufferRequest \/ k = GetObservedSymbolsResponse ->
  exists m socket',
    read_and_dispatch this
    = Returns (tt,
               set_received_messages (store k m (received_messages_ this))
                 (set_client (Some socket') this), [])
    /\ kind_of m = k.
Proof.
  intros Hclient Hbuf Hk.
  destruct this as [p srv c inbox]. cbn [client_ received_messages_] in *. subst c.
  destruct socket as [buf net out]. cbn [QTcpSocket.readBuffer] in Hbuf. subst buf.
  unfold read_and_dispatch. unfold bind at 1.
  rewrite read_header_value, MessageType_of_value_value.
  destruct Hk as [-> | ->].
  - unfold decode_plot_buffer_request. run.
    destruct (MessageDecoder.receive_string _ _) as [[ok value] s1]. run.
    by exists (PlotBufferRequestMessage value), s1.
  - unfold decode_get_observed_symbols_response. run.
    destruct (MessageDecoder.receive_symbol_list _ _) as [[ok container] s1]. run.
    by exists (GetObservedSymbolsResponseMessage container), s1.
Qed.

Lemma header_alone_stores_witness :
  exists m socket',
    read_and_dispatch
      (set_client
         (Some (QTcpSocket.mk
                  (le_bytes sizeof_MessageType (MessageType_value PlotBufferRequest) ++ [])
                  [] [])) (connected [] ∅))
    = Returns (tt,
               set_received_messages (store PlotBufferRequest m ∅)
                 (set_client (Some socket') (connected [] ∅)), [])
    /\ kind_of m = PlotBufferRequest.
Proof.
  apply (header_alone_stores
           (set_client
              (Some (QTcpSocket.mk
                       (le_bytes sizeof_MessageType (MessageType_value PlotBufferRequest) ++ [])
                       [] [])) (connected [] ∅))
           (QTcpSocket.mk
              (le_bytes sizeof_MessageType (MessageType_value PlotBufferRequest) ++ [])
              [] [])
           PlotBufferRequest []); [reflexivity | reflexivity | by left].
Defined.

(** X13. A whole frame at the head of the buffer is read back as the
    message the peer encoded: the round takes the bytes of the frame and
    no other, and stores the message under its kind. *)
Theorem frame_is_read_back (this : GiwBridge.t) (socket : QTcpSocket.t)
    (m : UiMessage) (rest : list byte) :
  client_ this = Some socket ->
  QTcpSocket.readBuffer socket = encode_message m ++ rest ->
  message_fits m = true ->
  read_and_dispatch this
  = Returns (tt,
             set_received_messages (store (kind_of m) m (received_messages_ this))
               (set_client
                  (Some (QTcpSocket.mk rest (QTcpSocket.network socket)
                           (QTcpSocket.written socket))) this), []).
Proof.
  intros Hclient Hbuf Hfit.
  destruct this as [p srv c inbox]. cbn [client_ received_messages_] in *. subst c.
  destruct socket as [buf net out]. cbn [QTcpSocket.readBuffer] in Hbuf. subst buf.
  by apply (read_and_dispatch_inbound p srv net out (Frame m) rest inbox).
Qed.

Lemma frame_is_read_back_witness :
  read_and_dispatch
    (set_client
       (Some (QTcpSocket.mk
                (encode_message (GetObservedSymbolsResponseMessage ["x"%string; EmptyString; "x"%string])
                 ++ [Init.Byte.x07]) [] [])) (connected [] ∅))
  = Returns (tt,
             set_received_messages
               (store GetObservedSymbolsResponse
                  (GetObservedSymbolsResponseMessage ["x"%string; EmptyString; "x"%string]) ∅)
               (set_client (Some (QTcpSocket.mk [Init.Byte.x07] [] [])) (connected [] ∅)),
             []).
Proof.
  apply (frame_is_read_back
           (set_client
              (Some (QTcpSocket.mk
                       (encode_message
                          (GetObservedSymbolsResponseMessage ["x"%string; EmptyString; "x"%string])
                        ++ [Init.Byte.x07]) [] [])) (connected [] ∅))
           (QTcpSocket.mk
              (encode_message (GetObservedSymbolsResponseMessage ["x"%string; EmptyString; "x"%string])
               ++ [Init.Byte.x07]) [] [])
           (GetObservedSymbolsResponseMessage ["x"%string; EmptyString; "x"%string])
           [Init.Byte.x07]); reflexivity.
Defined.

(** ** The functions exported to the debugger *)






(** The loop over a list that fits an [int]: one object per symbol. *)
Lemma observed_symbols_items_all PyBytes_FromString observed_symbols :
  Forall (fun symbol_name => is_Some (PyBytes_FromString (c_str symbol_name)))
    observed_symbols ->
  observed_symbols_items PyBytes_FromString (length observed_symbols) observed_symbols
  = Some (map (fun symbol_name => PyBytes_FromString (c_str symbol_name)) observed_symbols).
Proof.
  induction 1 as [|symbol_name rest [py Hpy] _ IH]; [done|].
  cbn [length observed_symbols_items map]. by rewrite Hpy, IH.
Qed.

Lemma to_int_small n : (Z.of_N n < 2 ^ 31)%Z -> to_int n = Z.of_N n.
Proof.
  intros H. unfold to_int.
  rewrite Z.mod_small by lia.
  destruct (Z.ltb_spec (Z.of_N n) (2 ^ 31)); [done | lia].
Qed.

(** X15. What [giw_get_observed_buffers] hands to Python, for a list
    that fits an [int]: when every bytes object can be made, a list with
    one bytes object per observed symbol, in the order of the response,
    duplicates kept, each name cut at its first NUL; an empty list, not
    null, when there is no symbol.  No exception is raised. *)
Theorem observed_buffers_list (PyBytes_FromString : string -> option PyObject)
    (app app' : GiwBridge.t) (observed_symbols : list string) (events : list Event) :
  get_observed_symbols app = Returns (observed_symbols, app', events) ->
  (Z.of_nat (length observed_symbols) < 2 ^ 31)%Z ->
  Forall (fun symbol_name => is_Some (PyBytes_FromString (c_str symbol_name)))
    observed_symbols ->
  giw_get_observed_buffers PyBytes_FromString (Some app)
  = Returns (Some (PyList (map (fun symbol_name => PyBytes_FromString (c_str symbol_name))
                             observed_symbols)),
             Some app', map Bridge events).
Proof.
  intros Hrun Hint Hall. unfold giw_get_observed_buffers, call. rewrite Hrun.
  rewrite to_int_small by (unfold length_N; lia).
  unfold length_N. rewrite nat_N_Z, Nat2Z.id.
  by rewrite observed_symbols_items_all.
Qed.

Lemma observed_buffers_list_witness :
  exists app',
    giw_get_observed_buffers (fun s => Some (PyBytes s))
      (Some (connected [QTcpSocket.Arrive
                          (encode_message
                             (GetObservedSymbolsResponseMessage
                                ["x"%string; String "y" (String Ascii.zero "z"); "x"%string]))]
               ∅))
    = Returns (Some (PyList [Some (PyBytes "x"); Some (PyBytes "y"); Some (PyBytes "x")]),
               Some app', []).
Proof.
  eexists.
  apply (observed_buffers_list (fun s => Some (PyBytes s))
           (connected [QTcpSocket.Arrive
                         (encode_message
                            (GetObservedSymbolsResponseMessage
                               ["x"%string; String "y" (String Ascii.zero "z"); "x"%string]))]
              ∅)
           _ ["x"%string; String "y" (String Ascii.zero "z"); "x"%string] []).
  - vm_compute. reflexivity.
  - cbn [length]. lia.
  - repeat constructor; by eexists.
Defined.

(** ** A bridge without a client, and what goes out *)

(** X16. After a [start] that returns false on a bridge that had no
    client, there is still none: [is_window_ready] answers false, and
    [get_observed_symbols], [set_available_symbols] and [run_event_loop]
    stop on their assertion. *)
Theorem failed_start_leaves_no_client (this this' : GiwBridge.t)
    (events : list Event) (kill : Z -> Z -> Z) (available_vars : list string) :
  client_ this = None ->
  start this = Returns (false, this', events) ->
  client_ this' = None
  /\ is_window_ready kill this' = false
  /\ get_observed_symbols this' = Fault
  /\ set_available_symbols available_vars this' = Fault
  /\ run_event_loop this' = Fault.
Proof.
  intros Hclient Hstart.
  assert (Hnone : client_ this' = None).
  { destruct this as [p [free listening inb pend] c inbox].
    cbn [client_] in Hclient. subst c. revert Hstart.
    unfold start, wait_for_client, QTcpServer.listen,
      QTcpServer.waitForNewConnection, QTcpServer.nextPendingConnection.
    destruct listening, free, inb as [peer|], pend as [|q pend];
      run; intros [= <- <-]; try done;
      cbn [client_] in *; by rewrite bool_decide_eq_true_2 in *. }
  destruct this' as [p' srv' c' inbox']. cbn [client_] in Hnone. subst c'.
  repeat split.
Qed.

Lemma failed_start_leaves_no_client_witness :
  run_event_loop
    (GiwBridge.mk (QProcess.mk 4242 4242) (QTcpServer.mk true true None []) None ∅)
  = Fault.
Proof.
  apply (failed_start_leaves_no_client
           (GiwBridge.new (QProcess.mk 0 4242) (QTcpServer.mk true false None []))
           (GiwBridge.mk (QProcess.mk 4242 4242) (QTcpServer.mk true true None []) None ∅)
           [Cerr "[giw] No clients connected to ImageWatch server"]
           (fun _ _ => 0%Z) []); reflexivity.
Defined.

(** X17. What goes out to the peer: a tick writes nothing, a call of
    [get_observed_symbols] writes the tag of its request and nothing
    else, whether a response is stored or has to be read, and a call of
    [set_available_symbols] writes its tag, the count and the names. *)
Theorem what_is_written (this this' : GiwBridge.t) (socket : QTcpSocket.t) :
  client_ this = Some socket ->
  (forall result events,
     run_event_loop this = Returns (result, this', events) ->
     exists socket', client_ this' = Some socket'
                     /\ QTcpSocket.written socket' = QTcpSocket.written socket)
  /\ (forall result events,
        get_observed_symbols this = Returns (result, this', events) ->
        exists socket', client_ this' = Some socket'
                        /\ QTcpSocket.written socket'
                           = QTcpSocket.written socket
                             ++ le_bytes sizeof_MessageType (MessageType_value GetObservedSymbols))
  /\ (forall available_vars result events,
        set_available_symbols available_vars this = Returns (result, this', events) ->
        exists socket', client_ this' = Some socket'
                        /\ QTcpSocket.written socket'
                           = QTcpSocket.written socket
                             ++ le_bytes sizeof_MessageType (MessageType_value SetAvailableSymbols)
                             ++ le_bytes sizeof_size_t (length_N available_vars)
                             ++ MessageComposer.encode_strings available_vars).
Proof.
  intros Hclient.
  destruct this as [p srv c inbox]. cbn [client_] in Hclient. subst c.
  split; [|split].
  - intros result events. unfold run_event_loop, bind.
    pose proof (try_read_incoming_messages_frame tick_msecs p srv socket inbox) as Hpass.
    destruct (try_read_incoming_messages tick_msecs _) as [[[u this1] events1]| |];
      [|done|done].
    destruct Hpass as (s1 & inbox1 & -> & _ & Hout & _).
    pose proof (plot_stored_requests_sound (GiwBridge.mk p srv (Some s1) inbox1)) as Hloop.
    destruct (plot_stored_requests _ _) as [[[u2 this2] events2]| |]; [|done|done].
    destruct Hloop as (_ & _ & Hsame). intros [= <- <- <-]. by exists s1.
  - intros result events.
    unfold get_observed_symbols, fetch_message. run.
    unfold take_stored at 1. cbn [received_messages_].
    destruct (inbox !! GetObservedSymbolsResponse) as [[l|name]|]; run.
    + intros [= <- <- <-]. eexists. split; reflexivity.
    + done.
    + pose proof (try_read_incoming_messages_frame default_msecs p srv
                    (MessageComposer.send
                       (MessageComposer.push_type GetObservedSymbols MessageComposer.empty)
                       socket) inbox) as Hpass.
      destruct (try_read_incoming_messages default_msecs _) as [[[u this1] events1]| |];
        [|done|done].
      destruct Hpass as (s1 & inbox1 & -> & _ & Hout & _). run.
      destruct (take_stored GetObservedSymbolsResponse inbox1) as [[[l|name]|] inbox2];
        run; [|done|]; intros [= <- <- <-]; by exists s1.
  - intros available_vars result events.
    unfold set_available_symbols. run. intros [= <- <- <-].
    eexists. split; [reflexivity|].
    unfold MessageComposer.send, QTcpSocket.write, MessageComposer.push_symbols,
      MessageComposer.push_type, MessageComposer.empty.
    cbn [QTcpSocket.written app]. done.
Qed.

Lemma what_is_written_witness :
  exists socket',
    client_ (set_client
               (Some (QTcpSocket.mk [] []
                        (le_bytes sizeof_MessageType (MessageType_value GetObservedSymbols))))
               (connected [] ∅)) = Some socket'
    /\ QTcpSocket.written socket'
       = [] ++ le_bytes sizeof_MessageType (MessageType_value GetObservedSymbols).
Proof.
  destruct (what_is_written (connected [] ∅)
              (set_client
                 (Some (QTcpSocket.mk [] []
                          (le_bytes sizeof_MessageType (MessageType_value GetObservedSymbols))))
                 (connected [] ∅))
              (QTcpSocket.mk [] [] [])) as (_ & Hget & _); [reflexivity|].
  apply (Hget [] []). reflexivity.
Defined.

(** ** One pass for the observed symbols *)

(** A pass whose first wait ends with one whole frame, or one header
    without a case, and nothing else buffered: it reads it and leaves,
    without another wait, whatever is still to arrive. *)
Lemma try_read_incoming_messages_single msecs p srv socket arrived socket1 inbox i :
  inbound_ok i = true ->
  QTcpSocket.waitForReadyRead msecs socket = (arrived, socket1) ->
  QTcpSocket.readBuffer socket1 = encode_inbound i ->
  try_read_incoming_messages msecs (GiwBridge.mk p srv (Some socket) inbox)
  = Returns (tt,
             GiwBridge.mk p srv
               (Some (QTcpSocket.mk [] (QTcpSocket.network socket1)
                        (QTcpSocket.written socket1)))
               (store_inbound inbox i),
             inbound_events i).
Proof.
  intros Hok Hwait Hbuf.
  destruct socket1 as [buf1 net1 out1].
  cbn [QTcpSocket.readBuffer QTcpSocket.network QTcpSocket.written] in *. subst buf1.
  unfold try_read_incoming_messages, try_read_fuel. run.
  rewrite try_read_loop_S. run. rewrite Hwait. run.
  unfold QTcpSocket.bytesAvailable at 1. cbn [QTcpSocket.readBuffer].
  replace (length_N (encode_inbound i) =? 0) with false.
  2:{ symmetry. apply N.eqb_neq. unfold length_N.
      pose proof (length_encode_inbound i). lia. }
  rewrite <- (app_nil_r (encode_inbound i)).
  rewrite read_and_dispatch_inbound by done. run.
  change (0 <? QTcpSocket.bytesAvailable (QTcpSocket.mk [] net1 out1)) with false.
  cbn. by rewrite app_nil_r.
Qed.

Lemma get_observed_symbols_one_pass p srv socket inbox this1 events :
  inbox_typed inbox ->
  inbox !! GetObservedSymbolsResponse = None ->
  try_read_incoming_messages default_msecs
    (GiwBridge.mk p srv (Some (request_sent socket)) inbox)
  = Returns (tt, this1, events) ->
  get_observed_symbols (GiwBridge.mk p srv (Some socket) inbox)
  = Returns (stored_symbols (received_messages_ this1),
             set_received_messages
               (delete GetObservedSymbolsResponse (received_messages_ this1)) this1,
             events).
Proof.
  intros Htyped Habsent Hpass.
  pose proof (try_read_incoming_messages_typed _ _ _ _ _ Hpass Htyped) as Htyped1.
  unfold get_observed_symbols, fetch_message. run.
  rewrite take_stored_absent by done. run. fold (request_sent socket).
  rewrite Hpass. run.
  unfold stored_symbols, take_stored.
  destruct (received_messages_ this1 !! GetObservedSymbolsResponse)
    as [[l|name]|] eqn:Hstored; run.
  - by rewrite !app_nil_r.
  - by apply Htyped1 in Hstored.
  - by rewrite !app_nil_r, delete_id.
Qed.

(** C2, as the code has it.  [get_observed_symbols] sends its request and
    returns the response that is stored already, if one is, without
    reading the socket.  Else it makes one pass, one run of the loop of
    [try_read_incoming_messages], and looks in the map once: what it
    returns is the response that this one pass has left in the map, and
    the empty sequence when it has left none.  So it returns the empty
    sequence when the first wait of the pass ends with nothing buffered,
    whatever the peer sends afterwards, and the symbols of a response
    whose frame is what is buffered when that wait ends, whatever
    arrives after it. *)
Theorem observed_symbols_single_pass (this : GiwBridge.t) (socket : QTcpSocket.t) :
  client_ this = Some socket ->
  (forall observed_symbols,
     received_messages_ this !! GetObservedSymbolsResponse
     = Some (GetObservedSymbolsResponseMessage observed_symbols) ->
     get_observed_symbols this
     = Returns (observed_symbols,
                set_received_messages
                  (delete GetObservedSymbolsResponse (received_messages_ this))
                  (set_client (Some (request_sent socket)) this),
                []))
  /\ (forall this1 events,
        inbox_typed (received_messages_ this) ->
        received_messages_ this !! GetObservedSymbolsResponse = None ->
        try_read_incoming_messages default_msecs
          (set_client (Some (request_sent socket)) this)
        = Returns (tt, this1, events) ->
        get_observed_symbols this
        = Returns (stored_symbols (received_messages_ this1),
                   set_received_messages
                     (delete GetObservedSymbolsResponse (received_messages_ this1)) this1,
                   events))
  /\ (forall arrived socket1,
        received_messages_ this !! GetObservedSymbolsResponse = None ->
        QTcpSocket.waitForReadyRead default_msecs (request_sent socket) = (arrived, socket1) ->
        QTcpSocket.bytesAvailable socket1 = 0 ->
        get_observed_symbols this = Returns ([], set_client (Some socket1) this, []))
  /\ (forall arrived socket1 observed_symbols,
        received_messages_ this !! GetObservedSymbolsResponse = None ->
        QTcpSocket.waitForReadyRead default_msecs (request_sent socket) = (arrived, socket1) ->
        QTcpSocket.readBuffer socket1
        = encode_message (GetObservedSymbolsResponseMessage observed_symbols) ->
        message_fits (GetObservedSymbolsResponseMessage observed_symbols) = true ->
        get_observed_symbols this
        = Returns (observed_symbols,
                   set_client
                     (Some (QTcpSocket.mk [] (QTcpSocket.network socket1)
                              (QTcpSocket.written socket1))) this,
                   [])).
Proof.
  intros Hclient.
  destruct this as [p srv c inbox]. cbn [client_ received_messages_] in *. subst c.
  split; [|split; [|split]].
  - intros observed_symbols Hstored.
    unfold get_observed_symbols, fetch_message. run.
    unfold take_stored. rewrite Hstored. by run.
  - intros this1 events. apply get_observed_symbols_one_pass.
  - intros arrived socket1. apply get_observed_symbols_no_bytes.
  - intros arrived socket1 observed_symbols Habsent Hwait Hbuf Hfit.
    unfold get_observed_symbols, fetch_message. run.
    rewrite take_stored_absent by done. run.
    fold (request_sent socket).
    rewrite (try_read_incoming_messages_single default_msecs p srv (request_sent socket)
               arrived socket1 inbox
               (Frame (GetObservedSymbolsResponseMessage observed_symbols))); try done.
    cbn [store_inbound kind_of inbound_events]. run.
    rewrite take_stored_store. run. by rewrite delete_id.
Qed.

Lemma observed_symbols_single_pass_witness :
  get_observed_symbols
    (connected [QTcpSocket.Arrive
                  (encode_message (GetObservedSymbolsResponseMessage ["x"; "y"; "z"]%string));
                QTcpSocket.Arrive
                  (encode_message (PlotBufferRequestMessage "buf1"))] ∅)
  = Returns (["x"; "y"; "z"]%string,
             set_client
               (Some (QTcpSocket.mk []
                        [QTcpSocket.Arrive (encode_message (PlotBufferRequestMessage "buf1"))]
                        (le_bytes sizeof_MessageType (MessageType_value GetObservedSymbols))))
               (connected [] ∅),
             []).
Proof.
  destruct (observed_symbols_single_pass
              (connected [QTcpSocket.Arrive
                            (encode_message
                               (GetObservedSymbolsResponseMessage ["x"; "y"; "z"]%string));
                          QTcpSocket.Arrive
                            (encode_message (PlotBufferRequestMessage "buf1"))] ∅)
              (QTcpSocket.mk []
                 [QTcpSocket.Arrive
                    (encode_message
                       (GetObservedSymbolsResponseMessage ["x"; "y"; "z"]%string));
                  QTcpSocket.Arrive
                    (encode_message (PlotBufferRequestMessage "buf1"))] []))
    as (_ & _ & _ & Harrives); [reflexivity|].
  apply (Harrives true
           (QTcpSocket.mk
              (encode_message (GetObservedSymbolsResponseMessage ["x"; "y"; "z"]%string))
              [QTcpSocket.Arrive (encode_message (PlotBufferRequestMessage "buf1"))]
              (le_bytes sizeof_MessageType (MessageType_value GetObservedSymbols))));
    reflexivity.
Defined.
